(** * Article data service: a shallow embedding of [src/services/articleService.ts]

    The service mediates between the UI and a hosted document store.  The
    embedding keeps the shape of the TypeScript source:

    - JavaScript strings are sequences of UTF-16 code units;
    - a record coming back from the store ([dbArticle: any]) is a finite map
      from property names to JavaScript values, and reading a missing
      property gives [undefined];
    - an awaited remote call either rejects or fulfils, and every public
      method wraps its body in [try { ... } catch { return default }];
    - [this] is an explicit argument of [transformArticle], because the
      source passes that method both as a bound call
      ([this.transformArticle(x)]) and as a bare callback
      ([articles.map(this.transformArticle)]). *)

From Stdlib Require Import NArith ZArith Ascii String Lia.
From stdpp Require Import base option list strings gmap sorting.

Set Warnings "-register-all".
Open Scope N_scope.

(** ** JavaScript strings *)

(** A string is a list of UTF-16 code units. *)
Abbreviation jsstring := (list N).

(** Source-code string literals. *)
Definition js (s : string) : jsstring :=
  N_of_ascii <$> list_ascii_of_string s.

(** [String.prototype.substr(start, length)] for non-negative arguments. *)
Definition substr (start len : nat) (s : jsstring) : jsstring :=
  take len (drop start s).

(** [s.split(sep)[0]] for a one-unit separator: the text before its first
    occurrence, or all of [s]. *)
Fixpoint split_head (sep : N) (s : jsstring) : jsstring :=
  match s with
  | [] => []
  | c :: r => if c =? sep then [] else c :: split_head sep r
  end.

(** ** JSON text *)

(** Values produced by [JSON.parse].  A number keeps its source lexeme: the
    service never computes with a parsed number. *)
Inductive Json :=
| JNull
| JBool (b : bool)
| JNumber (lexeme : jsstring)
| JString (s : jsstring)
| JArray (items : list Json)
| JObject (members : list (jsstring * Json)).

(** *** [JSON.stringify] on an array of strings *)

Definition is_high_surrogate (c : N) : bool := (0xD800 <=? c) && (c <=? 0xDBFF).
Definition is_low_surrogate (c : N) : bool := (0xDC00 <=? c) && (c <=? 0xDFFF).

Definition hex_digit (d : N) : N := if d <? 10 then 48 + d else 87 + d.

(** [UnicodeEscape]: a backslash, [u] and four lower-case hexadecimal digits. *)
Definition unicode_escape (c : N) : jsstring :=
  [92; 117; hex_digit (c / 4096 mod 16); hex_digit (c / 256 mod 16);
   hex_digit (c / 16 mod 16); hex_digit (c mod 16)].

(** One code unit that is not a surrogate, as [QuoteJSONString] writes it. *)
Definition quote_unit (c : N) : jsstring :=
  if c =? 8 then [92; 98]
  else if c =? 9 then [92; 116]
  else if c =? 10 then [92; 110]
  else if c =? 12 then [92; 102]
  else if c =? 13 then [92; 114]
  else if c =? 34 then [92; 34]
  else if c =? 92 then [92; 92]
  else if c <? 32 then unicode_escape c
  else [c].

(** The text between the quotes.  A high surrogate followed by a low one is
    one code point and is copied; a lone surrogate is escaped. *)
Fixpoint quote_units (s : jsstring) : jsstring :=
  match s with
  | [] => []
  | c :: r =>
    if is_high_surrogate c then
      match r with
      | d :: r' =>
        if is_low_surrogate d then c :: d :: quote_units r'
        else unicode_escape c ++ quote_units r
      | [] => unicode_escape c
      end
    else if is_low_surrogate c then unicode_escape c ++ quote_units r
    else quote_unit c ++ quote_units r
  end.

Definition QuoteJSONString (s : jsstring) : jsstring :=
  34 :: quote_units s ++ [34].

(** Elements separated by commas, without the brackets. *)
Fixpoint stringify_elements (l : list jsstring) : jsstring :=
  match l with
  | [] => []
  | [s] => QuoteJSONString s
  | s :: r => QuoteJSONString s ++ 44 :: stringify_elements r
  end.

(** [JSON.stringify(tags)] for [tags: string[]]. *)
Definition JSON_stringify (tags : list jsstring) : jsstring :=
  91 :: stringify_elements tags ++ [93].

(** *** [JSON.parse] *)

Definition is_ws (c : N) : bool :=
  (c =? 32) || (c =? 9) || (c =? 10) || (c =? 13).

Fixpoint skip_ws (s : jsstring) : jsstring :=
  match s with
  | c :: r => if is_ws c then skip_ws r else s
  | [] => []
  end.

Definition hex_value (c : N) : option N :=
  if (48 <=? c) && (c <=? 57) then Some (c - 48)
  else if (97 <=? c) && (c <=? 102) then Some (c - 87)
  else if (65 <=? c) && (c <=? 70) then Some (c - 55)
  else None.

Definition hex4 (a b c d : N) : option N :=
  match hex_value a, hex_value b, hex_value c, hex_value d with
  | Some x, Some y, Some z, Some w => Some (((x * 16 + y) * 16 + z) * 16 + w)
  | _, _, _, _ => None
  end.

(** The unit denoted by the letter after a backslash ([u] is handled by the
    caller). *)
Definition simple_escape (e : N) : option N :=
  if e =? 34 then Some 34
  else if e =? 92 then Some 92
  else if e =? 47 then Some 47
  else if e =? 98 then Some 8
  else if e =? 102 then Some 12
  else if e =? 110 then Some 10
  else if e =? 114 then Some 13
  else if e =? 116 then Some 9
  else None.

Definition cons_unit (c : N) (k : option (jsstring * jsstring))
  : option (jsstring * jsstring) :=
  match k with
  | Some (str, rest) => Some (c :: str, rest)
  | None => None
  end.

(** Reads a string body up to its closing quote; the opening quote has been
    consumed.  Returns the decoded string and the remaining input. *)
Fixpoint scan_string (s : jsstring) : option (jsstring * jsstring) :=
  match s with
  | [] => None
  | c :: r =>
    if c =? 34 then Some ([], r)
    else if c =? 92 then
      match r with
      | [] => None
      | e :: r1 =>
        if e =? 117 then
          match r1 with
          | h1 :: h2 :: h3 :: h4 :: r2 =>
            match hex4 h1 h2 h3 h4 with
            | Some u => cons_unit u (scan_string r2)
            | None => None
            end
          | _ => None
          end
        else
          match simple_escape e with
          | Some u => cons_unit u (scan_string r1)
          | None => None
          end
      end
    else if c <? 32 then None
    else cons_unit c (scan_string r)
  end.

Definition is_digit (c : N) : bool := (48 <=? c) && (c <=? 57).

Fixpoint span_digits (s : jsstring) : jsstring * jsstring :=
  match s with
  | c :: r =>
    if is_digit c then let '(ds, rest) := span_digits r in (c :: ds, rest)
    else ([], s)
  | [] => ([], [])
  end.

(** Integer part: a single [0], or a non-zero digit followed by digits. *)
Definition scan_int (s : jsstring) : option (jsstring * jsstring) :=
  match s with
  | c :: r =>
    if c =? 48 then Some ([48], r)
    else if is_digit c then let '(ds, rest) := span_digits r in Some (c :: ds, rest)
    else None
  | [] => None
  end.

Definition scan_frac (s : jsstring) : option (jsstring * jsstring) :=
  match s with
  | 46 :: r =>
    match span_digits r with
    | ([], _) => None
    | (ds, rest) => Some (46 :: ds, rest)
    end
  | _ => Some ([], s)
  end.

Definition scan_exp (s : jsstring) : option (jsstring * jsstring) :=
  match s with
  | e :: r =>
    if (e =? 101) || (e =? 69) then
      let '(sign, r1) :=
        match r with
        | g :: r' => if (g =? 43) || (g =? 45) then ([g], r') else ([], r)
        | [] => ([], r)
        end in
      match span_digits r1 with
      | ([], _) => None
      | (ds, rest) => Some (e :: sign ++ ds, rest)
      end
    else Some ([], s)
  | [] => Some ([], s)
  end.

Definition scan_number (s : jsstring) : option (jsstring * jsstring) :=
  let '(sign, s1) :=
    match s with
    | 45 :: r => ([45], r)
    | _ => ([], s)
    end in
  '(i, s2) ← scan_int s1;
  '(f, s3) ← scan_frac s2;
  '(e, s4) ← scan_exp s3;
  Some (sign ++ i ++ f ++ e, s4).

(** [strip_prefix p s] is the rest of [s] after the literal [p]. *)
Fixpoint strip_prefix (p s : jsstring) : option jsstring :=
  match p, s with
  | [], _ => Some s
  | a :: p', b :: s' => if a =? b then strip_prefix p' s' else None
  | _ :: _, [] => None
  end.

(** The recursive-descent parser; [fuel] bounds the nesting and the number
    of elements, and [JSON_parse] supplies enough for its whole input. *)
Fixpoint parse_value (fuel : nat) (s : jsstring) : option (Json * jsstring) :=
  match fuel with
  | O => None
  | S n =>
    match skip_ws s with
    | [] => None
    | c :: r =>
      if c =? 34 then
        '(str, rest) ← scan_string r; Some (JString str, rest)
      else if c =? 91 then
        match skip_ws r with
        | 93 :: rest => Some (JArray [], rest)
        | _ => '(items, rest) ← parse_elements n r; Some (JArray items, rest)
        end
      else if c =? 123 then
        match skip_ws r with
        | 125 :: rest => Some (JObject [], rest)
        | _ => '(members, rest) ← parse_members n r; Some (JObject members, rest)
        end
      else if c =? 116 then
        rest ← strip_prefix (js "rue") r; Some (JBool true, rest)
      else if c =? 102 then
        rest ← strip_prefix (js "alse") r; Some (JBool false, rest)
      else if c =? 110 then
        rest ← strip_prefix (js "ull") r; Some (JNull, rest)
      else
        '(lexeme, rest) ← scan_number (c :: r); Some (JNumber lexeme, rest)
    end
  end
with parse_elements (fuel : nat) (s : jsstring) : option (list Json * jsstring) :=
  match fuel with
  | O => None
  | S n =>
    '(v, r) ← parse_value n s;
    match skip_ws r with
    | 44 :: r' => '(vs, rest) ← parse_elements n r'; Some (v :: vs, rest)
    | 93 :: rest => Some ([v], rest)
    | _ => None
    end
  end
with parse_members (fuel : nat) (s : jsstring)
  : option (list (jsstring * Json) * jsstring) :=
  match fuel with
  | O => None
  | S n =>
    match skip_ws s with
    | 34 :: r =>
      '(key, r1) ← scan_string r;
      match skip_ws r1 with
      | 58 :: r2 =>
        '(v, r3) ← parse_value n r2;
        match skip_ws r3 with
        | 44 :: r4 => '(ms, rest) ← parse_members n r4; Some ((key, v) :: ms, rest)
        | 125 :: rest => Some ([(key, v)], rest)
        | _ => None
        end
      | _ => None
      end
    | _ => None
    end
  end.

(** [JSON.parse(text)]: [None] stands for the [SyntaxError] it throws. *)
Definition JSON_parse (text : jsstring) : option Json :=
  match parse_value (2 * length text + 2) text with
  | Some (v, rest) =>
    match skip_ws rest with
    | [] => Some v
    | _ => None
    end
  | None => None
  end.

(** ** JavaScript values *)

(** Numbers are IEEE doubles.  The service never does arithmetic on a stored
    number: it tests truthiness, compares with zero and converts to and from
    text.  Those operations form the interface below. *)
Class JsNumber := {
  number : Type;
  num_NaN : number;
  num_zero : number;
  num_one : number;
  (** [ToBoolean]: false for [+0], [-0] and [NaN]. *)
  num_truthy : number → bool;
  (** [n > 0]. *)
  num_gt0 : number → bool;
  (** [Number(s)] on a string. *)
  StringToNumber : jsstring → number;
  (** [String(n)]. *)
  NumberToString : number → jsstring;
}.

(** What the proofs use of the numeric conversions. *)
Class JsNumberLaws `{JsNumber} : Prop := {
  gt0_NaN : num_gt0 num_NaN = false;
  gt0_zero : num_gt0 num_zero = false;
  gt0_one : num_gt0 num_one = true;
  StringToNumber_1 : StringToNumber (js "1") = num_one;
  StringToNumber_0 : StringToNumber (js "0") = num_zero;
}.

(** The values a store column can hold. *)
Inductive JsVal `{JsNumber} :=
| VUndefined
| VNull
| VBool (b : bool)
| VNum (n : number)
| VStr (s : jsstring).

(** An object read from the store: [dbArticle: any]. *)
Abbreviation DbRecord := (gmap string JsVal).

Inductive Exn := RemoteError | TypeError.

(** The outcome of an expression that may throw, or of an awaited promise. *)
Inductive Result (A : Type) :=
| Ok (a : A)
| Throw (e : Exn).
Arguments Ok {A} a.
Arguments Throw {A} e.

(** The call did not fulfil. *)
Definition rejected {A} (r : Result A) : Prop :=
  match r with
  | Throw _ => True
  | Ok _ => False
  end.

(** The receiver of a method call. *)
Inductive ThisArg := ThisService | ThisUndefined.

(** *** Domain shapes *)

Module Article.
Record t `{JsNumber} := mk {
  id : JsVal;
  title : JsVal;
  content : JsVal;
  excerpt : JsVal;
  author : JsVal;
  category : JsVal;
  categoryName : JsVal;
  categoryColor : JsVal;
  featuredImage : JsVal;
  publishedAt : JsVal;
  readTime : JsVal;
  isAggregated : bool;
  sourceName : JsVal;
  sourceUrl : JsVal;
  tags : Json;
  userId : JsVal;
  createdAt : JsVal;
  updatedAt : JsVal;
}.
(** [a] with another title and another update stamp. *)
Definition with_title_updatedAt `{JsNumber} (new_title new_updatedAt : JsVal) (a : t) : t :=
  mk _ (id a) new_title (content a) (excerpt a) (author a) (category a)
     (categoryName a) (categoryColor a) (featuredImage a) (publishedAt a)
     (readTime a) (isAggregated a) (sourceName a) (sourceUrl a) (tags a)
     (userId a) (createdAt a) new_updatedAt.
End Article.

Module Category.
Record t `{JsNumber} := mk {
  id : JsVal;
  name : JsVal;
  color : JsVal;
  description : JsVal;
  userId : JsVal;
  createdAt : JsVal;
}.
(** The properties of a [Category], each with its reader. *)
Definition fields `{JsNumber} : list (string * (t → JsVal)) :=
  [("id"%string, id); ("name"%string, name); ("color"%string, color);
   ("description"%string, description); ("userId"%string, userId);
   ("createdAt"%string, createdAt)].
End Category.

(** [Partial<Article>]: every property may be absent. *)
Module PartialArticle.
Record t := mk {
  id : option jsstring;
  title : option jsstring;
  content : option jsstring;
  excerpt : option jsstring;
  author : option jsstring;
  category : option jsstring;
  categoryName : option jsstring;
  categoryColor : option jsstring;
  featuredImage : option jsstring;
  publishedAt : option jsstring;
  readTime : option jsstring;
  isAggregated : option bool;
  sourceName : option jsstring;
  sourceUrl : option jsstring;
  tags : option (list jsstring);
  userId : option jsstring;
  createdAt : option jsstring;
  updatedAt : option jsstring;
}.
Definition empty : t :=
  mk None None None None None None None None None None None None None None
     None None None None.
(** [{ title: x }] *)
Definition title_only (x : jsstring) : t :=
  mk None (Some x) None None None None None None None None None None None None
     None None None None.
(** [{ isAggregated: b }] *)
Definition flag_only (b : bool) : t :=
  mk None None None None None None None None None None None (Some b) None None
     None None None None.
End PartialArticle.

(** [ArticleFilters].  [limit] and [offset] count records. *)
Module ArticleFilters.
Record t := mk {
  category : option jsstring;
  search : option jsstring;
  isAggregated : option bool;
  limit : option nat;
  offset : option nat;
}.
Definition empty : t := mk None None None None None.
End ArticleFilters.

(** *** The query language of the document client *)

Inductive Where :=
| WEq (field : string) (v : jsstring)        (* { field: v } *)
| WNot (field : string) (v : jsstring)       (* { field: { not: v } } *)
| WContains (field : string) (s : jsstring)  (* { field: { contains: s } } *)
| WAnd (clauses : list Where)                (* { AND: [...] } *)
| WOr (clauses : list Where)                 (* { OR: [...] } *)
| WEmpty.                                    (* {} *)

Inductive Direction := Asc | Desc.

Record ListArgs := {
  q_where : option Where;
  q_orderBy : option (string * Direction);
  q_limit : option nat;
}.

(** What [createArticle] and [updateArticle] read from the clock and the
    random generator, in the order the source reads them. *)
Record Env `{JsNumber} := {
  (** [Date.now()] *)
  Date_now : number;
  (** [Math.random().toString(36)] *)
  Math_random_36 : jsstring;
  (** [new Date().toISOString()] in the [publishedAt] default *)
  iso_published : jsstring;
  (** [new Date().toISOString()] for [createdAt] *)
  iso_created : jsstring;
  (** [new Date().toISOString()] for [updatedAt] *)
  iso_updated : jsstring;
}.

(** The [blink.db] client, over a remote state [S].  Every call is awaited:
    it fulfils with a value or rejects. *)
Record DbClient `{JsNumber} (S : Type) := {
  articles_list : ListArgs → S → Result (list DbRecord) * S;
  articles_create : DbRecord → S → Result DbRecord * S;
  articles_update : jsstring → DbRecord → S → Result () * S;
  articles_delete : jsstring → S → Result () * S;
  categories_list : ListArgs → S → Result (list DbRecord) * S;
}.
Arguments articles_list {_ S} _ _ _.
Arguments articles_create {_ S} _ _ _.
Arguments articles_update {_ S} _ _ _ _.
Arguments articles_delete {_ S} _ _ _.
Arguments categories_list {_ S} _ _ _.

Section Values.
Context `{JsNumber}.

Definition ToBoolean (v : JsVal) : bool :=
  match v with
  | VUndefined | VNull => false
  | VBool b => b
  | VNum n => num_truthy n
  | VStr s => match s with [] => false | _ => true end
  end.

(** [a || b] *)
Definition js_or (a b : JsVal) : JsVal := if ToBoolean a then a else b.

(** [Number(v)] *)
Definition ToNumber (v : JsVal) : number :=
  match v with
  | VUndefined => num_NaN
  | VNull => num_zero
  | VBool b => if b then num_one else num_zero
  | VNum n => n
  | VStr s => StringToNumber s
  end.

(** [String(v)] *)
Definition ToString (v : JsVal) : jsstring :=
  match v with
  | VUndefined => js "undefined"
  | VNull => js "null"
  | VBool b => if b then js "true" else js "false"
  | VNum n => NumberToString n
  | VStr s => s
  end.

(** [o.k]: a missing property reads as [undefined]. *)
Definition get (o : DbRecord) (k : string) : JsVal := default VUndefined (o !! k).

(** An optional string property of a typed argument, as a value. *)
Definition opt_str (o : option jsstring) : JsVal := from_option VStr VUndefined o.

Definition opt_truthy (o : option jsstring) : bool := ToBoolean (opt_str o).
End Values.

(** ** The service *)

Section ArticleService.
Context `{JsNumber} {S : Type} (blink_db : DbClient S).

(** An asynchronous computation against the remote state. *)
Definition Async (A : Type) : Type := S → Result A * S.

Definition ret {A} (a : A) : Async A := λ st, (Ok a, st).

Definition bind {A B} (m : Async A) (k : A → Async B) : Async B :=
  λ st, match m st with
        | (Ok a, st') => k a st'
        | (Throw e, st') => (Throw e, st')
        end.

(** A synchronous expression inside an [async] body. *)
Definition lift {A} (r : Result A) : Async A := λ st, (r, st).

(** [try { body } catch (error) { console.error(...); return fallback }] *)
Definition try_catch {A} (body : Async A) (fallback : A) : S → A * S :=
  λ st, match body st with
        | (Ok a, st') => (a, st')
        | (Throw _, st') => (fallback, st')
        end.

(** [array.map(callbackfn)] with no [thisArg], as on lines 81, 132 and 152
    of the source, which pass the method value [this.transformArticle]
    detached from its receiver.  [Array.prototype.map] calls the callback
    with [this] set to [thisArg], here undefined, and a class body is strict
    code, so [this] stays undefined inside the callback.  Elements are
    visited in order and the first exception escapes. *)
Fixpoint Array_map {A B} (callbackfn : ThisArg → A → Result B) (array : list A)
  : Result (list B) :=
  match array with
  | [] => Ok []
  | x :: rest =>
    match callbackfn ThisUndefined x with
    | Ok y =>
      match Array_map callbackfn rest with
      | Ok ys => Ok (y :: ys)
      | Throw e => Throw e
      end
    | Throw e => Throw e
    end
  end.

(** [private parseTags(tagsString)] *)
Definition parseTags (tagsString : JsVal) : Json :=
  match JSON_parse (ToString (js_or tagsString (VStr (js "[]")))) with
  | Some v => v
  | None => JArray []
  end.

(** The property read [this.parseTags] on line 267: reading a property of
    [undefined] throws a [TypeError]. *)
Definition this_parseTags (this : ThisArg) : Result (JsVal → Json) :=
  match this with
  | ThisService => Ok parseTags
  | ThisUndefined => Throw TypeError
  end.

(** [private transformArticle(dbArticle)].  The properties before [tags] are
    plain reads of [dbArticle]; the only expression that can throw is
    [this.parseTags]. *)
Definition transformArticle (this : ThisArg) (dbArticle : DbRecord)
  : Result Article.t :=
  match this_parseTags this with
  | Throw e => Throw e
  | Ok this_parseTags =>
    Ok {|
      Article.id := get dbArticle "id";
      Article.title := get dbArticle "title";
      Article.content := get dbArticle "content";
      Article.excerpt := get dbArticle "excerpt";
      Article.author := get dbArticle "author";
      Article.category := get dbArticle "category";
      Article.categoryName :=
        js_or (get dbArticle "categoryName") (get dbArticle "category_name");
      Article.categoryColor :=
        js_or (get dbArticle "categoryColor") (get dbArticle "category_color");
      Article.featuredImage :=
        js_or (get dbArticle "featuredImage") (get dbArticle "featured_image");
      Article.publishedAt :=
        js_or (get dbArticle "publishedAt") (get dbArticle "published_at");
      Article.readTime :=
        js_or (get dbArticle "readTime") (get dbArticle "read_time");
      Article.isAggregated :=
        num_gt0 (ToNumber (js_or (get dbArticle "isAggregated")
                                 (get dbArticle "is_aggregated")));
      Article.sourceName :=
        js_or (get dbArticle "sourceName") (get dbArticle "source_name");
      Article.sourceUrl :=
        js_or (get dbArticle "sourceUrl") (get dbArticle "source_url");
      Article.tags := this_parseTags (get dbArticle "tags");
      Article.userId := js_or (get dbArticle "userId") (get dbArticle "user_id");
      Article.createdAt :=
        js_or (get dbArticle "createdAt") (get dbArticle "created_at");
      Article.updatedAt :=
        js_or (get dbArticle "updatedAt") (get dbArticle "updated_at");
    |}
  end.

(** The persisted form of the flag. *)
Definition flag_string (b : bool) : jsstring := if b then js "1" else js "0".

(** The [whereConditions] array of [getArticles], clause by clause. *)
Definition category_conditions (category : option jsstring) : list Where :=
  match category with
  | Some c =>
    if ToBoolean (VStr c) && negb (bool_decide (c = js "all"))
    then [WEq "category" c] else []
  | None => []
  end.

Definition search_conditions (search : option jsstring) : list Where :=
  match search with
  | Some s =>
    if ToBoolean (VStr s)
    then [WOr [WContains "title" s; WContains "excerpt" s;
               WContains "author" s; WContains "tags" s]]
    else []
  | None => []
  end.

Definition aggregated_conditions (isAggregated : option bool) : list Where :=
  match isAggregated with
  | Some b => [WEq "isAggregated" (flag_string b)]
  | None => []
  end.

Definition getArticles_query (filters : ArticleFilters.t) : ListArgs :=
  let category := ArticleFilters.category filters in
  let search := ArticleFilters.search filters in
  let isAggregated := ArticleFilters.isAggregated filters in
  let limit := default 20%nat (ArticleFilters.limit filters) in
  let offset := default 0%nat (ArticleFilters.offset filters) in
  let whereConditions :=
    category_conditions category ++ search_conditions search
      ++ aggregated_conditions isAggregated in
  let whereClause :=
    if (0 <? length whereConditions)%nat then WAnd whereConditions else WEmpty in
  {| q_where := Some whereClause;
     q_orderBy := Some ("publishedAt", Desc);
     q_limit := Some limit |}.

Definition getArticles (filters : ArticleFilters.t) : S → list Article.t * S :=
  try_catch
    (bind (articles_list blink_db (getArticles_query filters)) (λ articles,
     lift (Array_map transformArticle articles)))
    [].

Definition byId_query (id : jsstring) : ListArgs :=
  {| q_where := Some (WEq "id" id); q_orderBy := None; q_limit := Some 1%nat |}.

Definition getArticleById (id : jsstring) : S → option Article.t * S :=
  try_catch
    (bind (articles_list blink_db (byId_query id)) (λ articles,
     match articles with
     | [] => ret None
     | first :: _ =>
       lift (match transformArticle ThisService first with
             | Ok a => Ok (Some a)
             | Throw e => Throw e
             end)
     end))
    None.

Definition featured_query : ListArgs :=
  {| q_where := None; q_orderBy := Some ("publishedAt", Desc);
     q_limit := Some 1%nat |}.

Definition getFeaturedArticle : S → option Article.t * S :=
  try_catch
    (bind (articles_list blink_db featured_query) (λ articles,
     match articles with
     | [] => ret None
     | first :: _ =>
       lift (match transformArticle ThisService first with
             | Ok a => Ok (Some a)
             | Throw e => Throw e
             end)
     end))
    None.

Definition trending_query (limit : nat) : ListArgs :=
  {| q_where := None; q_orderBy := Some ("publishedAt", Desc);
     q_limit := Some (limit + 1)%nat |}.

Definition getTrendingArticles (limit : nat) : S → list Article.t * S :=
  try_catch
    (bind (articles_list blink_db (trending_query limit)) (λ articles,
     lift (Array_map transformArticle (drop 1 articles))))
    [].

Definition related_query (articleId category : jsstring) (limit : nat) : ListArgs :=
  {| q_where := Some (WAnd [WEq "category" category; WNot "id" articleId]);
     q_orderBy := Some ("publishedAt", Desc);
     q_limit := Some limit |}.

Definition getRelatedArticles (articleId category : jsstring) (limit : nat)
  : S → list Article.t * S :=
  try_catch
    (bind (articles_list blink_db (related_query articleId category limit)) (λ articles,
     lift (Array_map transformArticle articles)))
    [].

(** The arrow function of [getCategories]; it does not mention [this]. *)
Definition category_of (cat : DbRecord) : Category.t :=
  {| Category.id := get cat "id";
     Category.name := get cat "name";
     Category.color := get cat "color";
     Category.description := js_or (get cat "description") (VStr []);
     Category.userId := js_or (get cat "userId") (get cat "user_id");
     Category.createdAt := js_or (get cat "createdAt") (get cat "created_at") |}.

Definition categories_query : ListArgs :=
  {| q_where := None; q_orderBy := Some ("name", Asc); q_limit := None |}.

Definition getCategories : S → list Category.t * S :=
  try_catch
    (bind (categories_list blink_db categories_query) (λ categories,
     lift (Array_map (λ _ cat, Ok (category_of cat)) categories)))
    [].

(** [`article_${Date.now()}_${Math.random().toString(36).substr(2, 9)}`] *)
Definition new_id (env : Env) : jsstring :=
  js "article_" ++ NumberToString (Date_now env) ++ js "_"
    ++ substr 2 9 (Math_random_36 env).

(** [x || fallback] for an optional string property. *)
Definition str_or (o : option jsstring) (fallback : JsVal) : JsVal :=
  js_or (opt_str o) fallback.

(** The object literal handed to [blink.db.articles.create]. *)
Definition create_record (env : Env) (articleData : PartialArticle.t) : DbRecord :=
  let s := λ x, VStr (js x) in
  list_to_map [
    ("id", VStr (new_id env));
    ("title", str_or (PartialArticle.title articleData) (VStr []));
    ("content", str_or (PartialArticle.content articleData) (VStr []));
    ("excerpt", str_or (PartialArticle.excerpt articleData) (VStr []));
    ("author", str_or (PartialArticle.author articleData) (VStr []));
    ("category", str_or (PartialArticle.category articleData) (VStr []));
    ("categoryName", str_or (PartialArticle.categoryName articleData) (VStr []));
    ("categoryColor", str_or (PartialArticle.categoryColor articleData) (s "#2563eb"));
    ("featuredImage", str_or (PartialArticle.featuredImage articleData) (VStr []));
    ("publishedAt", str_or (PartialArticle.publishedAt articleData)
                      (VStr (split_head 84 (iso_published env))));
    ("readTime", str_or (PartialArticle.readTime articleData) (s "5 min read"));
    ("isAggregated",
       VStr (flag_string (default false (PartialArticle.isAggregated articleData))));
    ("sourceName", str_or (PartialArticle.sourceName articleData) VNull);
    ("sourceUrl", str_or (PartialArticle.sourceUrl articleData) VNull);
    ("tags", VStr (JSON_stringify (default [] (PartialArticle.tags articleData))));
    ("userId", str_or (PartialArticle.userId articleData) (s "user"));
    ("createdAt", VStr (iso_created env));
    ("updatedAt", VStr (iso_updated env))
  ].

Definition createArticle (env : Env) (articleData : PartialArticle.t)
  : S → option Article.t * S :=
  try_catch
    (bind (articles_create blink_db (create_record env articleData)) (λ article,
     lift (match transformArticle ThisService article with
           | Ok a => Ok (Some a)
           | Throw e => Throw e
           end)))
    None.

(** [if (x) updateData.k = x] *)
Definition set_if_truthy (k : string) (x : option jsstring) (updateData : DbRecord)
  : DbRecord :=
  if opt_truthy x then <[k := opt_str x]> updateData else updateData.

(** The [updateData] object of [updateArticle], assignment by assignment. *)
Definition update_record (now : jsstring) (articleData : PartialArticle.t) : DbRecord :=
  let updateData : DbRecord := {[ "updatedAt" := VStr now ]} in
  let updateData := set_if_truthy "title" (PartialArticle.title articleData) updateData in
  let updateData := set_if_truthy "content" (PartialArticle.content articleData) updateData in
  let updateData := set_if_truthy "excerpt" (PartialArticle.excerpt articleData) updateData in
  let updateData := set_if_truthy "author" (PartialArticle.author articleData) updateData in
  let updateData := set_if_truthy "category" (PartialArticle.category articleData) updateData in
  let updateData :=
    set_if_truthy "categoryName" (PartialArticle.categoryName articleData) updateData in
  let updateData :=
    set_if_truthy "categoryColor" (PartialArticle.categoryColor articleData) updateData in
  let updateData :=
    set_if_truthy "featuredImage" (PartialArticle.featuredImage articleData) updateData in
  let updateData :=
    set_if_truthy "publishedAt" (PartialArticle.publishedAt articleData) updateData in
  let updateData := set_if_truthy "readTime" (PartialArticle.readTime articleData) updateData in
  let updateData :=
    match PartialArticle.isAggregated articleData with
    | Some b => <["isAggregated" := VStr (flag_string b)]> updateData
    | None => updateData
    end in
  let updateData :=
    set_if_truthy "sourceName" (PartialArticle.sourceName articleData) updateData in
  let updateData :=
    set_if_truthy "sourceUrl" (PartialArticle.sourceUrl articleData) updateData in
  let updateData :=
    match PartialArticle.tags articleData with
    | Some tags => <["tags" := VStr (JSON_stringify tags)]> updateData
    | None => updateData
    end in
  updateData.

Definition updateArticle (now : jsstring) (id : jsstring)
    (articleData : PartialArticle.t) : S → option Article.t * S :=
  try_catch
    (bind (articles_update blink_db id (update_record now articleData)) (λ _,
     λ st, let '(a, st') := getArticleById id st in (Ok a, st')))
    None.

Definition deleteArticle (id : jsstring) : S → bool * S :=
  try_catch
    (bind (articles_delete blink_db id) (λ _, ret true))
    false.
End ArticleService.

(** ** The document store *)

(** Modelled from the spec: the remote document store behind [blink.db]
    (spec section 6), which is an external collaborator and not part of the
    sources.  [list({where, orderBy, limit})] selects the records that satisfy
    [where], orders them and keeps the first [limit]; [create] adds a record
    and returns it; [update] overwrites the supplied properties of the
    records with that id; [delete] removes them.  Section 3 says the
    persisted names are snake_case while callers use camelCase, so a field
    named in a query is looked up under the given name first and under its
    snake_case spelling otherwise.  [contains] is the substring test on code
    units; text orders by code unit, and values that are not text come
    first. *)
Module Store.
Record t `{JsNumber} := mk {
  articles : list DbRecord;
  categories : list DbRecord;
}.

Definition is_upper (a : ascii) : bool :=
  (65 <=? N_of_ascii a) && (N_of_ascii a <=? 90).

Definition to_lower (a : ascii) : ascii := ascii_of_N (N_of_ascii a + 32).

Fixpoint snake_case (k : string) : string :=
  match k with
  | EmptyString => EmptyString
  | String a rest =>
    if is_upper a then String "_" (String (to_lower a) (snake_case rest))
    else String a (snake_case rest)
  end.

Fixpoint is_prefix (p s : jsstring) : bool :=
  match p, s with
  | [], _ => true
  | a :: p', b :: s' => (a =? b) && is_prefix p' s'
  | _ :: _, [] => false
  end.

Fixpoint contains (s part : jsstring) : bool :=
  is_prefix part s || match s with [] => false | _ :: s' => contains s' part end.

Fixpoint lex_leb (s t : jsstring) : bool :=
  match s, t with
  | [], _ => true
  | _ :: _, [] => false
  | a :: s', b :: t' => (a <? b) || ((a =? b) && lex_leb s' t')
  end.

Section WithNumbers.
Context `{JsNumber}.

Definition column (r : DbRecord) (field : string) : JsVal :=
  match r !! field with
  | Some v => v
  | None => get r (snake_case field)
  end.

Definition text_is (v : JsVal) (s : jsstring) : bool :=
  match v with
  | VStr t => bool_decide (t = s)
  | _ => false
  end.

Fixpoint eval (w : Where) (r : DbRecord) : bool :=
  match w with
  | WEq f v => text_is (column r f) v
  | WNot f v => negb (text_is (column r f) v)
  | WContains f part =>
    match column r f with
    | VStr t => contains t part
    | _ => false
    end
  | WAnd clauses => forallb (λ c, eval c r) clauses
  | WOr clauses => existsb (λ c, eval c r) clauses
  | WEmpty => true
  end.

Definition sort_key (field : string) (r : DbRecord) : option jsstring :=
  match column r field with
  | VStr t => Some t
  | _ => None
  end.

Definition key_leb (a b : option jsstring) : bool :=
  match a, b with
  | None, _ => true
  | Some _, None => false
  | Some s, Some t => lex_leb s t
  end.

(** [r1] may come before [r2] under [orderBy: { field: direction }]. *)
Definition before (field : string) (d : Direction) (r1 r2 : DbRecord) : Prop :=
  match d with
  | Asc => key_leb (sort_key field r1) (sort_key field r2)
  | Desc => key_leb (sort_key field r2) (sort_key field r1)
  end.

#[global] Instance before_dec field d r1 r2 : Decision (before field d r1 r2).
Proof. unfold before; destruct d; apply _. Defined.

Definition select (w : option Where) (rows : list DbRecord) : list DbRecord :=
  match w with
  | Some w => List.filter (eval w) rows
  | None => rows
  end.

Definition order (o : option (string * Direction)) (rows : list DbRecord)
  : list DbRecord :=
  match o with
  | Some (field, d) => merge_sort (before field d) rows
  | None => rows
  end.

Definition page (limit : option nat) (rows : list DbRecord) : list DbRecord :=
  match limit with
  | Some n => take n rows
  | None => rows
  end.

Definition list (rows : list DbRecord) (q : ListArgs) : list DbRecord :=
  page (q_limit q) (order (q_orderBy q) (select (q_where q) rows)).

Definition has_id (id : jsstring) (r : DbRecord) : bool := text_is (column r "id") id.

Definition create (record : DbRecord) (st : t) : t :=
  mk _ (articles st ++ [record]) (categories st).

Definition update (id : jsstring) (data : DbRecord) (st : t) : t :=
  mk _ ((λ r, if has_id id r then data ∪ r else r) <$> articles st)
       (categories st).

Definition delete (id : jsstring) (st : t) : t :=
  mk _ (List.filter (λ r, negb (has_id id r)) (articles st)) (categories st).

(** The client of a store that is reachable: no call rejects. *)
Definition client : DbClient t := {|
  articles_list := λ q st, (Ok (list (articles st) q), st);
  articles_create := λ record st, (Ok record, create record st);
  articles_update := λ id data st, (Ok (), update id data st);
  articles_delete := λ id st, (Ok (), delete id st);
  categories_list := λ q st, (Ok (list (categories st) q), st);
|}.
End WithNumbers.
End Store.

(** ** A model of the number interface *)

(** Integers and [NaN], enough to run the service on concrete stores: a
    numeral that is not a decimal integer reads as [NaN]. *)
Module IntNumber.
Fixpoint uint_units (d : Decimal.uint) : jsstring :=
  match d with
  | Decimal.Nil => []
  | Decimal.D0 r => 48 :: uint_units r
  | Decimal.D1 r => 49 :: uint_units r
  | Decimal.D2 r => 50 :: uint_units r
  | Decimal.D3 r => 51 :: uint_units r
  | Decimal.D4 r => 52 :: uint_units r
  | Decimal.D5 r => 53 :: uint_units r
  | Decimal.D6 r => 54 :: uint_units r
  | Decimal.D7 r => 55 :: uint_units r
  | Decimal.D8 r => 56 :: uint_units r
  | Decimal.D9 r => 57 :: uint_units r
  end.

Definition to_string (n : option Z) : jsstring :=
  match n with
  | None => js "NaN"
  | Some z =>
    match Z.to_int z with
    | Decimal.Pos d => uint_units d
    | Decimal.Neg d => 45 :: uint_units d
    end
  end.

Fixpoint digits_value (acc : N) (s : jsstring) : option N :=
  match s with
  | [] => Some acc
  | c :: r => if is_digit c then digits_value (acc * 10 + (c - 48)) r else None
  end.

Definition unsigned_value (s : jsstring) : option Z :=
  match s with
  | [] => None
  | _ => Z.of_N <$> digits_value 0 s
  end.

Definition of_string (s : jsstring) : option Z :=
  match s with
  | [] => Some 0%Z
  | 45 :: r => Z.opp <$> unsigned_value r
  | 43 :: r => unsigned_value r
  | _ => unsigned_value s
  end.

#[export] Instance ops : JsNumber := {|
  number := option Z;
  num_NaN := None;
  num_zero := Some 0%Z;
  num_one := Some 1%Z;
  num_truthy := λ n, match n with Some z => negb (z =? 0)%Z | None => false end;
  num_gt0 := λ n, match n with Some z => (0 <? z)%Z | None => false end;
  StringToNumber := of_string;
  NumberToString := to_string;
|}.
End IntNumber.

(** The article that a bound call [this.transformArticle(r)] returns; the
    second branch is never taken, since a bound call does not throw. *)
Definition normalized `{JsNumber} (r : DbRecord) : Article.t :=
  match transformArticle ThisService r with
  | Ok a => a
  | Throw _ =>
    Article.mk _ VUndefined VUndefined VUndefined VUndefined VUndefined VUndefined
      VUndefined VUndefined VUndefined VUndefined VUndefined false VUndefined
      VUndefined JNull VUndefined VUndefined VUndefined
  end.

(** ** Default filling and sparse writes, as the specification words them *)

(** A field that was omitted, or supplied empty, gets its default; a
    supplied text is kept. *)
Definition filled `{JsNumber} (supplied : option jsstring) (default : JsVal) : JsVal :=
  match supplied with
  | Some (c :: s) => VStr (c :: s)
  | Some [] | None => default
  end.

(** What a sparse update writes for an optional text: a non-empty text is
    written, an absent or empty one is not. *)
Definition written `{JsNumber} (supplied : option jsstring) : option JsVal :=
  match supplied with
  | Some (c :: s) => Some (VStr (c :: s))
  | Some [] | None => None
  end.

(** The keys [updateArticle] can write. *)
Definition update_keys : list string :=
  ["updatedAt"; "title"; "content"; "excerpt"; "author"; "category";
   "categoryName"; "categoryColor"; "featuredImage"; "publishedAt"; "readTime";
   "isAggregated"; "sourceName"; "sourceUrl"; "tags"]%string.

(** The text a field shows after normalization when the store holds what
    [createArticle] wrote: a supplied, non-empty text, and [undefined]
    otherwise. *)
Definition present `{JsNumber} (supplied : option jsstring) : JsVal :=
  match supplied with
  | Some (c :: s) => VStr (c :: s)
  | Some [] | None => VUndefined
  end.

(** ** The pages *)

(** *** Text helpers *)

(** The [WhiteSpace] and [LineTerminator] code points: what [trim] strips
    and what the regular expression class [\s] matches. *)
Definition is_space (c : N) : bool :=
  ((9 <=? c) && (c <=? 13)) || (c =? 32) || (c =? 160) || (c =? 5760)
  || ((8192 <=? c) && (c <=? 8202)) || (c =? 8232) || (c =? 8233)
  || (c =? 8239) || (c =? 8287) || (c =? 12288) || (c =? 65279).

Fixpoint trimStart (s : jsstring) : jsstring :=
  match s with
  | c :: r => if is_space c then trimStart r else s
  | [] => []
  end.

Definition trimEnd (s : jsstring) : jsstring := reverse (trimStart (reverse s)).

(** [s.trim()] *)
Definition trim (s : jsstring) : jsstring := trimEnd (trimStart s).

(** [a || b] on two strings. *)
Definition text_or (a b : jsstring) : jsstring :=
  match a with
  | [] => b
  | _ :: _ => a
  end.

(** [String(n)] for a count [n]: its decimal digits. *)
Definition decimal (n : nat) : jsstring := IntNumber.uint_units (Nat.to_uint n).

(** [content.replace(/<[^>]*>/g, '')].  A [<] opens a match when a [>]
    follows somewhere, and the match ends at the first one; a [<] with no
    [>] after it stays.  [inside] tells whether the scan is within a
    match. *)
Fixpoint strip_tags_from (inside : bool) (s : jsstring) : jsstring :=
  match s with
  | [] => []
  | c :: r =>
    if inside then
      if c =? 62 then strip_tags_from false r else strip_tags_from true r
    else if (c =? 60) && existsb (N.eqb 62) r then strip_tags_from true r
    else c :: strip_tags_from false r
  end.

Definition strip_tags (content : jsstring) : jsstring := strip_tags_from false content.

(** [text.split(/\s+/)]: the pieces between maximal runs of white space,
    the empty pieces at both ends included.  [piece] is the current piece,
    reversed; [in_run] tells whether the previous unit was white space. *)
Fixpoint split_spaces_from (piece : jsstring) (in_run : bool) (s : jsstring)
  : list jsstring :=
  match s with
  | [] => [reverse piece]
  | c :: r =>
    if is_space c then
      if in_run then split_spaces_from piece true r
      else reverse piece :: split_spaces_from [] true r
    else split_spaces_from (c :: piece) false r
  end.

Definition split_spaces (text : jsstring) : list jsstring :=
  split_spaces_from [] false text.

(** [estimateReadTime(content)] of the editor and of the article page.  The
    word count is a whole number below 2^53, for which
    [Math.ceil(wordCount / 200)] is the rounded-up quotient. *)
Definition estimateReadTime (content : jsstring) : jsstring :=
  let wordsPerMinute := 200%nat in
  let wordCount := length (split_spaces (strip_tags content)) in
  let minutes := ((wordCount + (wordsPerMinute - 1)) / wordsPerMinute)%nat in
  decimal minutes ++ js " min read".

(** *** URL search parameters *)

(** [URLSearchParams]: an ordered list of name-value pairs.  Arguments are
    converted to scalar value strings: a lone surrogate becomes U+FFFD. *)
Module URLSearchParams.
Abbreviation t := (list (jsstring * jsstring)).

Fixpoint to_usv (s : jsstring) : jsstring :=
  match s with
  | [] => []
  | c :: r =>
    if is_high_surrogate c then
      match r with
      | d :: r' =>
        if is_low_surrogate d then c :: d :: to_usv r' else 65533 :: to_usv r
      | [] => [65533]
      end
    else if is_low_surrogate c then 65533 :: to_usv r
    else c :: to_usv r
  end.

Definition named (name : jsstring) (entry : jsstring * jsstring) : bool :=
  bool_decide (entry.1 = name).

(** [params.get(name)]: the value of the first pair with that name. *)
Definition get (name : jsstring) (params : t) : option jsstring :=
  snd <$> List.find (named (to_usv name)) params.

(** [params.delete(name)] removes every pair with that name. *)
Definition delete (name : jsstring) (params : t) : t :=
  List.filter (λ entry, negb (named (to_usv name) entry)) params.

Fixpoint set_entry (name value : jsstring) (params : t) : t :=
  match params with
  | [] => [(name, value)]
  | entry :: rest =>
    if named name entry
    then (name, value) :: List.filter (λ p, negb (named name p)) rest
    else entry :: set_entry name value rest
  end.

(** [params.set(name, value)]: the first pair with that name takes the
    value and the others go; with no such pair, one is appended. *)
Definition set (name value : jsstring) (params : t) : t :=
  set_entry (to_usv name) (to_usv value) params.
End URLSearchParams.

(** *** The home page *)

Module HomePage.
(** [searchParams.get(name) || fallback] *)
Definition param_or (name fallback : string) (searchParams : URLSearchParams.t)
  : jsstring :=
  match URLSearchParams.get (js name) searchParams with
  | Some value => text_or value (js fallback)
  | None => js fallback
  end.

(** The handlers return the parameters they hand to [setSearchParams]. *)
Definition handleSearch (query : jsstring) (searchParams : URLSearchParams.t)
  : URLSearchParams.t :=
  let newParams := searchParams in
  match trim query with
  | _ :: _ => URLSearchParams.set (js "search") (trim query) newParams
  | [] => URLSearchParams.delete (js "search") newParams
  end.

Definition handleCategoryChange (category : jsstring)
    (searchParams : URLSearchParams.t) : URLSearchParams.t :=
  let newParams := searchParams in
  if negb (bool_decide (category = js "all"))
  then URLSearchParams.set (js "category") category newParams
  else URLSearchParams.delete (js "category") newParams.

Definition handleTypeFilter (type : jsstring) (searchParams : URLSearchParams.t)
  : URLSearchParams.t :=
  let newParams := searchParams in
  if negb (bool_decide (type = js "all"))
  then URLSearchParams.set (js "type") type newParams
  else URLSearchParams.delete (js "type") newParams.

(** The [filters] object that [loadArticles] builds. *)
Definition loadArticles_filters (category search type : jsstring) : ArticleFilters.t :=
  {| ArticleFilters.category :=
       if negb (bool_decide (category = js "all")) then Some category else None;
     ArticleFilters.search :=
       match trim search with
       | _ :: _ => Some (trim search)
       | [] => None
       end;
     ArticleFilters.isAggregated :=
       if bool_decide (type = js "aggregated") then Some true
       else if bool_decide (type = js "original") then Some false
       else None;
     ArticleFilters.limit := None;
     ArticleFilters.offset := None |}.

(** [loadArticles]: the articles it puts in the page state. *)
Definition loadArticles `{JsNumber} {S : Type} (db : DbClient S)
    (category search type : jsstring) : S → list Article.t * S :=
  getArticles db (loadArticles_filters category search type).

(** What the effect on [searchParams] reads from them, and the filters
    [loadArticles] makes of that. *)
Definition filters_of_params (searchParams : URLSearchParams.t) : ArticleFilters.t :=
  let category := param_or "category" "all" searchParams in
  let search := param_or "search" EmptyString searchParams in
  let type := param_or "type" "all" searchParams in
  loadArticles_filters category search type.

(** The effect that runs when the search parameters change. *)
Definition on_searchParams `{JsNumber} {S : Type} (db : DbClient S)
    (searchParams : URLSearchParams.t) : S → list Article.t * S :=
  let category := param_or "category" "all" searchParams in
  let search := param_or "search" EmptyString searchParams in
  let type := param_or "type" "all" searchParams in
  loadArticles db category search type.
End HomePage.

(** *** The admin dashboard *)

Module AdminDashboard.
Record Stats := {
  totalArticles : nat;
  originalArticles : nat;
  aggregatedArticles : nat;
  totalViews : nat;
}.

(** The statistics computed from the loaded articles; [views] is the mock
    figure drawn from [Math.random]. *)
Definition stats_of `{JsNumber} (allArticles : list Article.t) (views : nat) : Stats :=
  {| totalArticles := length allArticles;
     originalArticles :=
       length (List.filter (λ a, negb (Article.isAggregated a)) allArticles);
     aggregatedArticles := length (List.filter Article.isAggregated allArticles);
     totalViews := views |}.

(** [loadDashboardData]: the articles and statistics it puts in the page
    state. *)
Definition loadDashboardData `{JsNumber} {S : Type} (db : DbClient S) (views : nat)
  : S → (list Article.t * Stats) * S :=
  λ st,
    let '(allArticles, st') :=
      getArticles db (ArticleFilters.mk None None None (Some 100%nat) None) st in
    ((allArticles, stats_of allArticles views), st').
End AdminDashboard.

(** *** The editor *)

Module CreatePost.
Record FormData := {
  title : jsstring;
  excerpt : jsstring;
  content : jsstring;
  author : jsstring;
  category : jsstring;
  featuredImage : jsstring;
  isAggregated : bool;
  sourceName : jsstring;
  sourceUrl : jsstring;
  tags : list jsstring;
  readTime : jsstring;
}.

(** [handleInputChange('tags', value)] *)
Definition with_tags (value : list jsstring) (formData : FormData) : FormData :=
  {| title := title formData; excerpt := excerpt formData;
     content := content formData; author := author formData;
     category := category formData; featuredImage := featuredImage formData;
     isAggregated := isAggregated formData; sourceName := sourceName formData;
     sourceUrl := sourceUrl formData; tags := value;
     readTime := readTime formData |}.

(** [addTag]: the form and the tag input afterwards. *)
Definition addTag (formData : FormData) (newTag : jsstring) : FormData * jsstring :=
  match trim newTag with
  | _ :: _ =>
    if negb (bool_decide (trim newTag ∈ tags formData))
    then (with_tags (tags formData ++ [trim newTag]) formData, [])
    else (formData, newTag)
  | [] => (formData, newTag)
  end.

Definition removeTag (tagToRemove : jsstring) (formData : FormData) : FormData :=
  with_tags (List.filter (λ tag, negb (bool_decide (tag = tagToRemove)))
               (tags formData)) formData.

(** [validateForm]: the alert it raises, or none when it returns true. *)
Definition validateForm (formData : FormData) : option string :=
  match trim (title formData) with
  | [] => Some "Please enter a title"%string
  | _ :: _ =>
    match trim (excerpt formData) with
    | [] => Some "Please enter an excerpt"%string
    | _ :: _ =>
      match trim (content formData) with
      | [] => Some "Please enter content"%string
      | _ :: _ =>
        match trim (author formData) with
        | [] => Some "Please enter an author name"%string
        | _ :: _ =>
          match category formData with
          | [] => Some "Please select a category"%string
          | _ :: _ => None
          end
        end
      end
    end
  end.

(** A category at its declared type, with the properties the editor
    reads. *)
Record CategoryOption := {
  option_id : jsstring;
  option_name : jsstring;
  option_color : jsstring;
}.

(** The [articleData] object of [handleSave]; [today] is the
    [new Date().toISOString()] it reads. *)
Definition articleData_of (formData : FormData) (categories : list CategoryOption)
    (today : jsstring) : PartialArticle.t :=
  let selectedCategory :=
    List.find (λ cat, bool_decide (option_id cat = category formData)) categories in
  {| PartialArticle.id := None;
     PartialArticle.title := Some (trim (title formData));
     PartialArticle.content := Some (trim (content formData));
     PartialArticle.excerpt := Some (trim (excerpt formData));
     PartialArticle.author := Some (trim (author formData));
     PartialArticle.category := Some (category formData);
     PartialArticle.categoryName :=
       Some (match selectedCategory with
             | Some cat => text_or (option_name cat) (category formData)
             | None => category formData
             end);
     PartialArticle.categoryColor :=
       Some (match selectedCategory with
             | Some cat => text_or (option_color cat) (js "#2563eb")
             | None => js "#2563eb"
             end);
     PartialArticle.featuredImage := Some (featuredImage formData);
     PartialArticle.publishedAt := Some (split_head 84 today);
     PartialArticle.readTime :=
       Some (text_or (readTime formData) (estimateReadTime (content formData)));
     PartialArticle.isAggregated := Some (isAggregated formData);
     PartialArticle.sourceName :=
       if isAggregated formData then Some (sourceName formData) else None;
     PartialArticle.sourceUrl :=
       if isAggregated formData then Some (sourceUrl formData) else None;
     PartialArticle.tags := Some (tags formData);
     PartialArticle.userId := Some (js "admin");
     PartialArticle.createdAt := None;
     PartialArticle.updatedAt := None |}.

Inductive Outcome :=
| Alerted (message : string)   (* alert(message) *)
| Navigated (path : string).   (* navigate(path) *)

(** [handleSave].  [id] is the route parameter; [env] holds what the
    service reads from the clock and the random generator. *)
Definition handleSave `{JsNumber} {S : Type} (db : DbClient S) (env : Env)
    (today : jsstring) (id : option jsstring) (formData : FormData)
    (categories : list CategoryOption) : S → Outcome * S :=
  λ st,
    match validateForm formData with
    | Some message => (Alerted message, st)
    | None =>
      let articleData := articleData_of formData categories today in
      let '(result, st') :=
        match id with
        | Some (c :: i) => updateArticle db (iso_updated env) (c :: i) articleData st
        | Some [] | None => createArticle db env articleData st
        end in
      match result with
      | Some _ => (Navigated "/admin", st')
      | None => (Alerted "Failed to save article. Please try again.", st')
      end
    end.
End CreatePost.

(** ** Concrete clients and stores *)

(** A client whose every call rejects: the store is unreachable. *)
Definition offline `{JsNumber} : DbClient () := {|
  articles_list := λ _ st, (Throw RemoteError, st);
  articles_create := λ _ st, (Throw RemoteError, st);
  articles_update := λ _ _ st, (Throw RemoteError, st);
  articles_delete := λ _ st, (Throw RemoteError, st);
  categories_list := λ _ st, (Throw RemoteError, st);
|}.

Module Sample.
Import IntNumber.

Definition client : DbClient Store.t := Store.client.

Definition article_row (id title category publishedAt flag : string) : DbRecord :=
  list_to_map [
    ("id", VStr (js id)); ("title", VStr (js title));
    ("category", VStr (js category)); ("publishedAt", VStr (js publishedAt));
    ("isAggregated", VStr (js flag)); ("tags", VStr (js "[]"))
  ].

Definition monday : DbRecord := article_row "a1" "Monday" "ai" "2024-01-01" "0".
Definition tuesday : DbRecord := article_row "a2" "Tuesday" "web" "2024-01-02" "1".
Definition wednesday : DbRecord := article_row "a3" "Wednesday" "ai" "2024-01-03" "0".
Definition thursday : DbRecord := article_row "a4" "Thursday" "web" "2024-01-04" "1".

(** The category of the spec's scenario: no description, no owner. *)
Definition ai_category : DbRecord :=
  list_to_map [("id", VStr (js "ai")); ("name", VStr (js "AI"));
               ("color", VStr (js "#111"))].

(** A category as a store with snake_case names returns it. *)
Definition web_category : DbRecord :=
  list_to_map [("id", VStr (js "web")); ("name", VStr (js "Web"));
               ("color", VStr (js "#222")); ("description", VStr (js "The web"));
               ("user_id", VStr (js "u1"));
               ("created_at", VStr (js "2024-01-01T00:00:00.000Z"))].

Definition one_article : Store.t := Store.mk _ [monday] [web_category; ai_category].

Definition four_articles : Store.t :=
  Store.mk _ [monday; thursday; tuesday; wednesday] [web_category; ai_category].

Definition env : Env := {|
  Date_now := Some 1700000000000%Z;
  Math_random_36 := js "0.4fzyo82mvyr";
  iso_published := js "2024-05-06T07:08:09.123Z";
  iso_created := js "2024-05-06T07:08:09.124Z";
  iso_updated := js "2024-05-06T07:08:09.125Z";
|}.

End Sample.

(** Inputs of the pages. *)
Module PageSample.
Definition draft : CreatePost.FormData := {|
  CreatePost.title := js " Proofs at work ";
  CreatePost.excerpt := js "A short tour";
  CreatePost.content := js "<p>Hello world</p>";
  CreatePost.author := js "Ada";
  CreatePost.category := js "ai";
  CreatePost.featuredImage := [];
  CreatePost.isAggregated := false;
  CreatePost.sourceName := [];
  CreatePost.sourceUrl := [];
  CreatePost.tags := [js "ai"];
  CreatePost.readTime := [];
|}.

(** The form as the editor opens it. *)
Definition blank : CreatePost.FormData := {|
  CreatePost.title := [];
  CreatePost.excerpt := [];
  CreatePost.content := [];
  CreatePost.author := [];
  CreatePost.category := [];
  CreatePost.featuredImage := [];
  CreatePost.isAggregated := false;
  CreatePost.sourceName := [];
  CreatePost.sourceUrl := [];
  CreatePost.tags := [];
  CreatePost.readTime := [];
|}.

Definition categories : list CreatePost.CategoryOption :=
  [{| CreatePost.option_id := js "ai"; CreatePost.option_name := js "AI";
      CreatePost.option_color := js "#111" |}].

Definition today : jsstring := js "2024-06-01T10:00:00.000Z".

Definition searchParams : URLSearchParams.t :=
  [(js "category", js "ai"); (js "search", js "old")].
End PageSample.

(** * Properties *)

(** ** JSON text: quoting and scanning *)

Ltac Zify.zify_post_hook ::= Z.to_euclidean_division_equations.

Lemma hex_value_digit (d : N) : d < 16 → hex_value (hex_digit d) = Some d.
Proof.
  intros Hd. unfold hex_value, hex_digit.
  destruct (N.ltb_spec d 10).
  - replace ((48 <=? 48 + d) && (48 + d <=? 57)) with true
      by (symmetry; apply andb_true_iff; split; apply N.leb_le; lia).
    f_equal. lia.
  - replace ((48 <=? 87 + d) && (87 + d <=? 57)) with false
      by (symmetry; apply andb_false_iff; right; apply N.leb_gt; lia).
    replace ((97 <=? 87 + d) && (87 + d <=? 102)) with true
      by (symmetry; apply andb_true_iff; split; apply N.leb_le; lia).
    f_equal. lia.
Qed.

Lemma hex4_escape (c : N) :
  c < 65536 →
  hex4 (hex_digit (c / 4096 mod 16)) (hex_digit (c / 256 mod 16))
       (hex_digit (c / 16 mod 16)) (hex_digit (c mod 16)) = Some c.
Proof.
  intros Hc. unfold hex4.
  rewrite !hex_value_digit by (apply N.mod_lt; lia).
  f_equal. lia.
Qed.

Lemma scan_string_escape (c : N) (t : jsstring) :
  c < 65536 →
  scan_string (unicode_escape c ++ t) = cons_unit c (scan_string t).
Proof.
  intros Hc. unfold unicode_escape. cbn [app scan_string].
  change (92 =? 34) with false. change (92 =? 92) with true.
  change (117 =? 117) with true. cbv iota.
  now rewrite hex4_escape.
Qed.

Lemma scan_string_plain (c : N) (t : jsstring) :
  c ≠ 34 → c ≠ 92 → 32 ≤ c →
  scan_string (c :: t) = cons_unit c (scan_string t).
Proof.
  intros H1 H2 H3. cbn [scan_string].
  destruct (N.eqb_spec c 34); [done|].
  destruct (N.eqb_spec c 92); [done|].
  destruct (N.ltb_spec c 32); [lia|done].
Qed.

Lemma scan_string_quote_unit (c : N) (t : jsstring) :
  scan_string (quote_unit c ++ t) = cons_unit c (scan_string t).
Proof.
  unfold quote_unit.
  destruct (N.eqb_spec c 8) as [->|]; [reflexivity|].
  destruct (N.eqb_spec c 9) as [->|]; [reflexivity|].
  destruct (N.eqb_spec c 10) as [->|]; [reflexivity|].
  destruct (N.eqb_spec c 12) as [->|]; [reflexivity|].
  destruct (N.eqb_spec c 13) as [->|]; [reflexivity|].
  destruct (N.eqb_spec c 34) as [->|]; [reflexivity|].
  destruct (N.eqb_spec c 92) as [->|]; [reflexivity|].
  destruct (N.ltb_spec c 32).
  - apply scan_string_escape. lia.
  - now apply scan_string_plain.
Qed.

Lemma surrogate_plain (c : N) :
  is_high_surrogate c || is_low_surrogate c = true →
  c ≠ 34 ∧ c ≠ 92 ∧ 32 ≤ c ∧ c < 65536.
Proof.
  unfold is_high_surrogate, is_low_surrogate.
  rewrite orb_true_iff, !andb_true_iff, !N.leb_le. lia.
Qed.

(** Scanning the quoted form of [s] gives [s] back and stops after the
    closing quote. *)
Lemma scan_string_quote_units (s rest : jsstring) :
  scan_string (quote_units s ++ 34 :: rest) = Some (s, rest).
Proof.
  remember (length s) as n eqn:Hn.
  revert s Hn. induction (lt_wf n) as [n _ IH]. intros s ->.
  destruct s as [|c r]; [reflexivity|].
  cbn [quote_units].
  destruct (is_high_surrogate c) eqn:Hh.
  - destruct (surrogate_plain c) as (? & ? & ? & ?); [now rewrite Hh|].
    destruct r as [|d r'].
    + rewrite scan_string_escape by done. reflexivity.
    + destruct (is_low_surrogate d) eqn:Hl.
      * destruct (surrogate_plain d) as (? & ? & ? & ?);
          [now rewrite Hl, orb_true_r|].
        cbn [app]. rewrite !scan_string_plain by done.
        rewrite (IH (length r') ltac:(cbn; lia) r' eq_refl). reflexivity.
      * rewrite <- app_assoc, scan_string_escape by done.
        rewrite (IH (length (d :: r')) ltac:(cbn; lia) (d :: r') eq_refl). reflexivity.
  - destruct (is_low_surrogate c) eqn:Hl.
    + destruct (surrogate_plain c) as (? & ? & ? & ?);
        [now rewrite Hl, orb_true_r|].
      rewrite <- app_assoc, scan_string_escape by done.
      rewrite (IH (length r) ltac:(cbn; lia) r eq_refl). reflexivity.
    + rewrite <- app_assoc, scan_string_quote_unit.
      rewrite (IH (length r) ltac:(cbn; lia) r eq_refl). reflexivity.
Qed.

Lemma parse_value_quote (n : nat) (r : jsstring) :
  parse_value (S n) (34 :: r)
  = '(str, rest) ← scan_string r; Some (JString str, rest).
Proof. reflexivity. Qed.

Lemma parse_value_bracket (n : nat) (r : jsstring) :
  parse_value (S n) (91 :: r)
  = match skip_ws r with
    | 93 :: rest => Some (JArray [], rest)
    | _ => '(items, rest) ← parse_elements n r; Some (JArray items, rest)
    end.
Proof. reflexivity. Qed.

Lemma parse_elements_step (n : nat) (s : jsstring) :
  parse_elements (S n) s
  = '(v, r) ← parse_value n s;
    match skip_ws r with
    | 44 :: r' => '(vs, rest) ← parse_elements n r'; Some (v :: vs, rest)
    | 93 :: rest => Some ([v], rest)
    | _ => None
    end.
Proof. reflexivity. Qed.

Lemma parse_value_string (n : nat) (s rest : jsstring) :
  parse_value (S n) (QuoteJSONString s ++ rest) = Some (JString s, rest).
Proof.
  unfold QuoteJSONString. cbn [app]. rewrite parse_value_quote, <- app_assoc.
  cbn [app]. now rewrite scan_string_quote_units.
Qed.

Lemma parse_elements_strings (tags : list jsstring) :
  ∀ (s : jsstring) (n : nat) (rest : jsstring),
    (length tags < n)%nat →
    parse_elements (S n) (stringify_elements (s :: tags) ++ 93 :: rest)
    = Some (JString <$> (s :: tags), rest).
Proof.
  induction tags as [|s' tags IH]; intros s n rest Hn;
    (destruct n as [|n]; [cbn in Hn; lia|]); rewrite parse_elements_step.
  - cbn [stringify_elements]. now rewrite parse_value_string.
  - change (stringify_elements (s :: s' :: tags))
      with (QuoteJSONString s ++ 44 :: stringify_elements (s' :: tags)).
    rewrite <- app_assoc, parse_value_string. cbn [app].
    change (Some (JString s, 44 :: stringify_elements (s' :: tags) ++ 93 :: rest)
              ≫= _)
      with ('(vs, rest0) ← parse_elements (S n)
                             (stringify_elements (s' :: tags) ++ 93 :: rest);
            Some (JString s :: vs, rest0)).
    rewrite IH by (cbn in Hn; lia). reflexivity.
Qed.

Lemma stringify_elements_head (s : jsstring) (tags : list jsstring) :
  ∃ t, stringify_elements (s :: tags) = 34 :: t.
Proof. destruct tags; eexists; reflexivity. Qed.

Lemma parse_value_array (tags : list jsstring) (n : nat) (rest : jsstring) :
  (length tags < n)%nat →
  parse_value (S n) (JSON_stringify tags ++ rest)
  = Some (JArray (JString <$> tags), rest).
Proof.
  intros Hn. unfold JSON_stringify. cbn [app]. rewrite parse_value_bracket.
  destruct tags as [|s tags]; [reflexivity|].
  rewrite <- app_assoc. cbn [app].
  destruct n as [|n]; [cbn in Hn; lia|].
  rewrite parse_elements_strings by (cbn in Hn; lia).
  destruct (stringify_elements_head s tags) as [t ->]. reflexivity.
Qed.

Lemma length_stringify_elements (tags : list jsstring) :
  (length tags ≤ length (stringify_elements tags))%nat.
Proof.
  induction tags as [|s [|s' tags] IH]; [done| |].
  - cbn. lia.
  - change (stringify_elements (s :: s' :: tags))
      with (QuoteJSONString s ++ 44 :: stringify_elements (s' :: tags)).
    rewrite length_app. cbn in *. lia.
Qed.

(** [JSON.parse(JSON.stringify(tags))] is the array of the same strings. *)
Lemma JSON_parse_stringify (tags : list jsstring) :
  JSON_parse (JSON_stringify tags) = Some (JArray (JString <$> tags)).
Proof.
  unfold JSON_parse.
  pose proof (length_stringify_elements tags) as Hlen.
  assert (Hfuel : ∃ n, (2 * length (JSON_stringify tags) + 2 = S n ∧ length tags < n)%nat).
  { exists (2 * length (JSON_stringify tags) + 1)%nat. split; [lia|].
    unfold JSON_stringify. cbn [length]. rewrite length_app. cbn [length]. lia. }
  destruct Hfuel as (n & -> & Hn).
  rewrite <- (app_nil_r (JSON_stringify tags)) at 1.
  rewrite parse_value_array by done. reflexivity.
Qed.

Lemma JSON_stringify_truthy (tags : list jsstring) : JSON_stringify tags ≠ [].
Proof. done. Qed.

(** ** JSON text: the fuel of [JSON_parse] is enough *)

Lemma length_skip_ws (s : jsstring) : (length (skip_ws s) ≤ length s)%nat.
Proof. induction s as [|c s IH]; cbn; [lia|]. destruct (is_ws c); cbn; lia. Qed.

Lemma length_cons_unit (c : N) (k : option (jsstring * jsstring)) str rest :
  cons_unit c k = Some (str, rest) → ∃ str', k = Some (str', rest).
Proof. destruct k as [[? ?]|]; cbn; [|done]. intros [= <- <-]. eauto. Qed.

Lemma length_scan_string (s str rest : jsstring) :
  scan_string s = Some (str, rest) → (length rest < length s)%nat.
Proof.
  remember (length s) as n eqn:Hn. revert s str rest Hn.
  induction (lt_wf n) as [n _ IH]. intros s str rest -> Hs.
  destruct s as [|c r]; [done|]. cbn [scan_string] in Hs.
  destruct (c =? 34); [injection Hs as <- <-; cbn; lia|].
  destruct (c =? 92).
  - destruct r as [|e r1]; [done|].
    destruct (e =? 117).
    + destruct r1 as [|h1 [|h2 [|h3 [|h4 r2]]]]; try done.
      destruct (hex4 h1 h2 h3 h4); [|done].
      apply length_cons_unit in Hs as [str' Hs].
      apply (IH (length r2)) in Hs; cbn in *; lia || done.
    + destruct (simple_escape e); [|done].
      apply length_cons_unit in Hs as [str' Hs].
      apply (IH (length r1)) in Hs; cbn in *; lia || done.
  - destruct (c <? 32); [done|].
    apply length_cons_unit in Hs as [str' Hs].
    apply (IH (length r)) in Hs; cbn in *; lia || done.
Qed.

Lemma length_span_digits (s : jsstring) : (length (span_digits s).2 ≤ length s)%nat.
Proof.
  induction s as [|c s IH]; cbn; [lia|].
  destruct (is_digit c); [|cbn; lia].
  destruct (span_digits s); cbn in *; lia.
Qed.

Lemma length_scan_number (s lexeme rest : jsstring) :
  scan_number s = Some (lexeme, rest) → (length rest < length s)%nat.
Proof.
  unfold scan_number. intros Hs.
  assert (Hint : ∀ s1 i s2, scan_int s1 = Some (i, s2) → (length s2 < length s1)%nat).
  { intros [|c r] i s2; cbn; [done|].
    destruct (c =? 48); [intros [= <- <-]; cbn; lia|].
    destruct (is_digit c); [|done].
    pose proof (length_span_digits r). destruct (span_digits r).
    intros [= <- <-]. cbn in *. lia. }
  assert (Hfrac : ∀ s2 f s3, scan_frac s2 = Some (f, s3) → (length s3 ≤ length s2)%nat).
  { intros s2 f s3. unfold scan_frac.
    destruct s2 as [|c r]; [intros [= <- <-]; lia|].
    destruct (N.eq_dec c 46) as [->|Hc].
    - pose proof (length_span_digits r). destruct (span_digits r) as [[|d ds] t];
        [done|]. intros [= <- <-]. cbn in *. lia.
    - replace (match c with 46 => _ | _ => Some ([], c :: r) end)
        with (Some (@nil N, c :: r)).
      + intros [= <- <-]. lia.
      + destruct c as [|p]; [done|]. repeat (destruct p as [p|p|]; try done). }
  assert (Hexp : ∀ s3 e s4, scan_exp s3 = Some (e, s4) → (length s4 ≤ length s3)%nat).
  { intros s3 e s4. unfold scan_exp.
    destruct s3 as [|c r]; [intros [= <- <-]; lia|].
    destruct ((c =? 101) || (c =? 69)); [|intros [= <- <-]; lia].
    destruct r as [|g r'].
    - cbn. done.
    - destruct ((g =? 43) || (g =? 45)).
      + pose proof (length_span_digits r'). destruct (span_digits r') as [[|d ds] t];
          [done|]. intros [= <- <-]. cbn in *. lia.
      + pose proof (length_span_digits (g :: r')).
        destruct (span_digits (g :: r')) as [[|d ds] t]; [done|].
        intros [= <- <-]. cbn in *. lia. }
  assert (Hsign : ∃ sign s1, (length s1 ≤ length s)%nat
            ∧ (match s with 45 :: r => ([45], r) | _ => ([], s) end) = (sign, s1)).
  { destruct s as [|c r]; [by exists [], []|].
    destruct (N.eq_dec c 45) as [->|Hc].
    - exists [45], r. split; [cbn; lia|done].
    - exists [], (c :: r). split; [lia|].
      destruct c as [|p]; [done|]. repeat (destruct p as [p|p|]; try done). }
  destruct Hsign as (sign & s1 & Hlen & Heq). rewrite Heq in Hs.
  destruct (scan_int s1) as [[i s2]|] eqn:Hi; [|done]. cbn in Hs.
  destruct (scan_frac s2) as [[f s3]|] eqn:Hf; [|done]. cbn in Hs.
  destruct (scan_exp s3) as [[e s4]|] eqn:He; [|done]. cbn in Hs.
  injection Hs as <- <-.
  apply Hint in Hi. apply Hfrac in Hf. apply Hexp in He. lia.
Qed.

Lemma length_strip_prefix (p s rest : jsstring) :
  strip_prefix p s = Some rest → (length rest ≤ length s)%nat.
Proof.
  revert s. induction p as [|a p IH]; intros [|b s]; cbn; try done.
  - intros [= <-]. done.
  - intros [= <-]. done.
  - destruct (a =? b); [|done]. intros Hs%IH. lia.
Qed.

Lemma parse_value_step (n : nat) (s : jsstring) :
  parse_value (S n) s
  = match skip_ws s with
    | [] => None
    | c :: r =>
      if c =? 34 then
        '(str, rest) ← scan_string r; Some (JString str, rest)
      else if c =? 91 then
        match skip_ws r with
        | 93 :: rest => Some (JArray [], rest)
        | _ => '(items, rest) ← parse_elements n r; Some (JArray items, rest)
        end
      else if c =? 123 then
        match skip_ws r with
        | 125 :: rest => Some (JObject [], rest)
        | _ => '(members, rest) ← parse_members n r; Some (JObject members, rest)
        end
      else if c =? 116 then
        rest ← strip_prefix (js "rue") r; Some (JBool true, rest)
      else if c =? 102 then
        rest ← strip_prefix (js "alse") r; Some (JBool false, rest)
      else if c =? 110 then
        rest ← strip_prefix (js "ull") r; Some (JNull, rest)
      else
        '(lexeme, rest) ← scan_number (c :: r); Some (JNumber lexeme, rest)
    end.
Proof. reflexivity. Qed.

Lemma parse_members_step (n : nat) (s : jsstring) :
  parse_members (S n) s
  = match skip_ws s with
    | 34 :: r =>
      '(key, r1) ← scan_string r;
      match skip_ws r1 with
      | 58 :: r2 =>
        '(v, r3) ← parse_value n r2;
        match skip_ws r3 with
        | 44 :: r4 => '(ms, rest) ← parse_members n r4; Some ((key, v) :: ms, rest)
        | 125 :: rest => Some ([(key, v)], rest)
        | _ => None
        end
      | _ => None
      end
    | _ => None
    end.
Proof. reflexivity. Qed.

(** A first unit [c] in front of the input, by cases on its code. *)
Lemma first_unit_cases (k : N) (s : jsstring) :
  (∃ r, s = k :: r) ∨ (∀ r, s ≠ k :: r).
Proof.
  destruct s as [|c r]; [by right|].
  destruct (N.eq_dec c k) as [->|Hc]; [left; eauto|right; congruence].
Qed.

(** With [n] units of fuel a successful parse consumed input, and any fuel
    above twice the consumed length gives the same result. *)
Lemma parse_fuel (n : nat) :
  (∀ s v rest, parse_value n s = Some (v, rest) →
     (length rest < length s)%nat
     ∧ ∀ m, (2 * (length s - length rest) ≤ m)%nat →
            parse_value m s = Some (v, rest))
  ∧ (∀ s vs rest, parse_elements n s = Some (vs, rest) →
       (length rest < length s)%nat
       ∧ ∀ m, (2 * (length s - length rest) + 1 ≤ m)%nat →
              parse_elements m s = Some (vs, rest))
  ∧ (∀ s ms rest, parse_members n s = Some (ms, rest) →
       (length rest < length s)%nat
       ∧ ∀ m, (2 * (length s - length rest) + 1 ≤ m)%nat →
              parse_members m s = Some (ms, rest)).
Proof.
  induction n as [|n (IHv & IHe & IHm)]; [done|].
  repeat apply conj.
  - (* values *)
    intros s v rest. rewrite parse_value_step.
    pose proof (length_skip_ws s) as Hws.
    destruct (skip_ws s) as [|c r] eqn:Hs; [done|]. cbn [length] in Hws.
    assert (Hprim :
      (length rest < length (c :: r))%nat →
      (∀ m, parse_value (S m) s = Some (v, rest)) →
      (length rest < length s)%nat
      ∧ ∀ m, (2 * (length s - length rest) ≤ m)%nat →
             parse_value m s = Some (v, rest)).
    { intros Hlen Hm. cbn [length] in Hlen. split; [lia|].
      intros [|m] ?; [lia|apply Hm]. }
    destruct (c =? 34) eqn:E34.
    { destruct (scan_string r) as [[str t]|] eqn:Hstr; [|done].
      intros [= <- <-]. apply Hprim.
      - apply length_scan_string in Hstr. cbn. lia.
      - intros m. by rewrite parse_value_step, Hs, E34, Hstr. }
    destruct (c =? 91) eqn:E91.
    { destruct (first_unit_cases 93 (skip_ws r)) as [[t Ht]|Hne].
      - rewrite Ht. intros [= <- <-]. apply Hprim.
        + pose proof (length_skip_ws r). rewrite Ht in *. cbn in *. lia.
        + intros m. by rewrite parse_value_step, Hs, E34, E91, Ht.
      - intros Hp.
        assert (Hp' : ('(items, rest0) ← parse_elements n r;
                       Some (JArray items, rest0)) = Some (v, rest)).
        { destruct (skip_ws r) as [|[|p] t]; try done.
          repeat (destruct p as [p|p|]; try done). by destruct (Hne t). }
        clear Hp. destruct (parse_elements n r) as [[items t]|] eqn:He; [|done].
        injection Hp' as <- <-. apply IHe in He as [Hlen Hfuel].
        split; [cbn in *; lia|]. intros [|m] Hm; [cbn in *; lia|].
        rewrite parse_value_step, Hs, E34, E91, (Hfuel m) by (cbn in *; lia).
        destruct (skip_ws r) as [|[|p] t']; try done.
        repeat (destruct p as [p|p|]; try done). by destruct (Hne t'). }
    destruct (c =? 123) eqn:E123.
    { destruct (first_unit_cases 125 (skip_ws r)) as [[t Ht]|Hne].
      - rewrite Ht. intros [= <- <-]. apply Hprim.
        + pose proof (length_skip_ws r). rewrite Ht in *. cbn in *. lia.
        + intros m. by rewrite parse_value_step, Hs, E34, E91, E123, Ht.
      - intros Hp.
        assert (Hp' : ('(members, rest0) ← parse_members n r;
                       Some (JObject members, rest0)) = Some (v, rest)).
        { destruct (skip_ws r) as [|[|p] t]; try done.
          repeat (destruct p as [p|p|]; try done). by destruct (Hne t). }
        clear Hp. destruct (parse_members n r) as [[members t]|] eqn:He; [|done].
        injection Hp' as <- <-. apply IHm in He as [Hlen Hfuel].
        split; [cbn in *; lia|]. intros [|m] Hm; [cbn in *; lia|].
        rewrite parse_value_step, Hs, E34, E91, E123, (Hfuel m) by (cbn in *; lia).
        destruct (skip_ws r) as [|[|p] t']; try done.
        repeat (destruct p as [p|p|]; try done). by destruct (Hne t'). }
    destruct (c =? 116) eqn:E116.
    { destruct (strip_prefix (js "rue") r) as [t|] eqn:Hp; [|done].
      intros [= <- <-]. apply Hprim.
      - apply length_strip_prefix in Hp. cbn. lia.
      - intros m. by rewrite parse_value_step, Hs, E34, E91, E123, E116, Hp. }
    destruct (c =? 102) eqn:E102.
    { destruct (strip_prefix (js "alse") r) as [t|] eqn:Hp; [|done].
      intros [= <- <-]. apply Hprim.
      - apply length_strip_prefix in Hp. cbn. lia.
      - intros m. by rewrite parse_value_step, Hs, E34, E91, E123, E116, E102, Hp. }
    destruct (c =? 110) eqn:E110.
    { destruct (strip_prefix (js "ull") r) as [t|] eqn:Hp; [|done].
      intros [= <- <-]. apply Hprim.
      - apply length_strip_prefix in Hp. cbn. lia.
      - intros m.
        by rewrite parse_value_step, Hs, E34, E91, E123, E116, E102, E110, Hp. }
    destruct (scan_number (c :: r)) as [[lexeme t]|] eqn:Hp; [|done].
    intros [= <- <-]. apply Hprim.
    + by apply length_scan_number in Hp.
    + intros m.
      by rewrite parse_value_step, Hs, E34, E91, E123, E116, E102, E110, Hp.
  - (* elements *)
    intros s vs rest. rewrite parse_elements_step.
    destruct (parse_value n s) as [[v r]|] eqn:Hv; [|done]. cbn [mbind option_bind].
    apply IHv in Hv as [Hlen Hfuel]. pose proof (length_skip_ws r) as Hws.
    destruct (first_unit_cases 44 (skip_ws r)) as [[r' Hr]|Hne44].
    + rewrite Hr. destruct (parse_elements n r') as [[vs' t]|] eqn:He; [|done].
      intros [= <- <-]. apply IHe in He as [Hlen' Hfuel'].
      rewrite Hr in Hws. cbn [length] in Hws.
      split; [lia|]. intros [|m] Hm; [lia|].
      rewrite parse_elements_step, (Hfuel m) by lia. cbn [mbind option_bind].
      rewrite Hr, (Hfuel' m) by lia. done.
    + destruct (first_unit_cases 93 (skip_ws r)) as [[r' Hr]|Hne93].
      * rewrite Hr. intros [= <- <-]. rewrite Hr in Hws. cbn [length] in Hws.
        split; [lia|]. intros [|m] Hm; [lia|].
        rewrite parse_elements_step, (Hfuel m) by lia. cbn [mbind option_bind].
        by rewrite Hr.
      * intros Hp. exfalso.
        destruct (skip_ws r) as [|[|p] t]; try done.
        repeat (destruct p as [p|p|]; try done);
          [by destruct (Hne93 t)|by destruct (Hne44 t)].
  - (* members *)
    intros s ms rest. rewrite parse_members_step.
    pose proof (length_skip_ws s) as Hws0.
    destruct (first_unit_cases 34 (skip_ws s)) as [[r Hs]|Hne];
      [|intros Hp; exfalso; destruct (skip_ws s) as [|[|p] t]; try done;
        repeat (destruct p as [p|p|]; try done); by destruct (Hne t)].
    rewrite Hs. rewrite Hs in Hws0. cbn [length] in Hws0.
    destruct (scan_string r) as [[key r1]|] eqn:Hkey; [|done].
    cbn [mbind option_bind]. pose proof (length_scan_string _ _ _ Hkey) as Hk.
    pose proof (length_skip_ws r1) as Hws1.
    destruct (first_unit_cases 58 (skip_ws r1)) as [[r2 Hr1]|Hne];
      [|intros Hp; exfalso; destruct (skip_ws r1) as [|[|p] t]; try done;
        repeat (destruct p as [p|p|]; try done); by destruct (Hne t)].
    rewrite Hr1. rewrite Hr1 in Hws1. cbn [length] in Hws1.
    destruct (parse_value n r2) as [[v r3]|] eqn:Hv; [|done].
    cbn [mbind option_bind]. apply IHv in Hv as [Hlen Hfuel].
    pose proof (length_skip_ws r3) as Hws3.
    destruct (first_unit_cases 44 (skip_ws r3)) as [[r4 Hr3]|Hne44].
    + rewrite Hr3. destruct (parse_members n r4) as [[ms' t]|] eqn:Hm; [|done].
      intros [= <- <-]. apply IHm in Hm as [Hlen' Hfuel'].
      rewrite Hr3 in Hws3. cbn [length] in Hws3.
      split; [lia|]. intros [|m] Hm; [lia|].
      rewrite parse_members_step, Hs, Hkey. cbn [mbind option_bind].
      rewrite Hr1, (Hfuel m) by lia. cbn [mbind option_bind].
      rewrite Hr3, (Hfuel' m) by lia. done.
    + destruct (first_unit_cases 125 (skip_ws r3)) as [[r4 Hr3]|Hne125].
      * rewrite Hr3. intros [= <- <-]. rewrite Hr3 in Hws3. cbn [length] in Hws3.
        split; [lia|]. intros [|m] Hm; [lia|].
        rewrite parse_members_step, Hs, Hkey. cbn [mbind option_bind].
        rewrite Hr1, (Hfuel m) by lia. cbn [mbind option_bind].
        by rewrite Hr3.
      * intros Hp. exfalso.
        destruct (skip_ws r3) as [|[|p] t]; try done.
        repeat (destruct p as [p|p|]; try done);
          [by destruct (Hne125 t)|by destruct (Hne44 t)].
Qed.

(** [JSON_parse] fails only on text that no amount of fuel parses. *)
Lemma JSON_parse_enough_fuel (text : jsstring) (n : nat) (v : Json) (rest : jsstring) :
  parse_value n text = Some (v, rest) → skip_ws rest = [] →
  JSON_parse text = Some v.
Proof.
  intros Hp Hrest. unfold JSON_parse.
  destruct (parse_fuel n) as (Hv & _ & _).
  destruct (Hv _ _ _ Hp) as [Hlen Hfuel].
  rewrite (Hfuel (2 * length text + 2)%nat) by lia. by rewrite Hrest.
Qed.

(** ** The service: what every client gives *)

Section AnyClient.
Context `{JsNumber} {S : Type} (db : DbClient S).

(** As a callback of [map], [transformArticle] runs with [this] undefined
    and throws at [this.parseTags] on the first element. *)
Lemma Array_map_transformArticle (articles : list DbRecord) :
  Array_map transformArticle articles
  = match articles with [] => Ok [] | _ :: _ => Throw TypeError end.
Proof. by destruct articles. Qed.

(** Whatever the store answers, [getArticles] hands back the empty
    sequence: an empty page maps to itself, a page with records makes the
    callback throw, and a rejection is caught too. *)
Lemma getArticles_unfold (filters : ArticleFilters.t) (st : S) :
  getArticles db filters st
  = ([], (articles_list db (getArticles_query filters) st).2).
Proof.
  unfold getArticles, try_catch, bind, lift.
  by destruct (articles_list db (getArticles_query filters) st) as [[[|r l]|e] st'].
Qed.


Lemma category_conditions_all :
  category_conditions (Some (js "all")) = [] ∧ category_conditions (Some []) = [].
Proof. split; reflexivity. Qed.
End AnyClient.

(** C10: an empty-string category puts no category restriction on the
    query, so [getArticles] answers as it does with the category absent and
    as it does with the category ["all"], for every client, every state and
    every choice of the other filters. *)
Theorem getArticles_empty_category `{JsNumber} {S : Type} (db : DbClient S)
    (search : option jsstring) (isAggregated : option bool)
    (limit offset : option nat) (st : S) :
  getArticles db (ArticleFilters.mk (Some []) search isAggregated limit offset) st
  = getArticles db (ArticleFilters.mk None search isAggregated limit offset) st
  ∧ getArticles db (ArticleFilters.mk (Some []) search isAggregated limit offset) st
    = getArticles db (ArticleFilters.mk (Some (js "all")) search isAggregated limit offset) st
  ∧ q_where (getArticles_query
               (ArticleFilters.mk (Some []) search isAggregated limit offset))
    = q_where (getArticles_query
                 (ArticleFilters.mk None search isAggregated limit offset)).
Proof.
  assert (Hq : ∀ c, category_conditions c = [] →
    getArticles_query (ArticleFilters.mk c search isAggregated limit offset)
    = getArticles_query (ArticleFilters.mk None search isAggregated limit offset)).
  { intros c Hc. unfold getArticles_query. cbn [ArticleFilters.category].
    now rewrite Hc. }
  destruct category_conditions_all as [Hall Hempty].
  rewrite !getArticles_unfold, (Hq (Some [])), (Hq (Some (js "all"))) by done.
  done.
Qed.

(** C2: when the remote call rejects, no operation lets the exception out:
    the list operations return the empty sequence, the single-record
    operations return null, and delete returns false. *)
Theorem remote_failure_safe_defaults `{JsNumber} {S : Type} (db : DbClient S) (st : S) :
  (∀ filters,
     rejected (articles_list db (getArticles_query filters) st).1 →
     (getArticles db filters st).1 = [])
  ∧ (∀ limit,
       rejected (articles_list db (trending_query limit) st).1 →
       (getTrendingArticles db limit st).1 = [])
  ∧ (∀ articleId category limit,
       rejected (articles_list db (related_query articleId category limit) st).1 →
       (getRelatedArticles db articleId category limit st).1 = [])
  ∧ (rejected (categories_list db categories_query st).1 →
     (getCategories db st).1 = [])
  ∧ (∀ id,
       rejected (articles_list db (byId_query id) st).1 →
       (getArticleById db id st).1 = None)
  ∧ (rejected (articles_list db featured_query st).1 →
     (getFeaturedArticle db st).1 = None)
  ∧ (∀ env articleData,
       rejected (articles_create db (create_record env articleData) st).1 →
       (createArticle db env articleData st).1 = None)
  ∧ (∀ now id articleData,
       rejected (articles_update db id (update_record now articleData) st).1 →
       (updateArticle db now id articleData st).1 = None)
  ∧ (∀ now id articleData st',
       articles_update db id (update_record now articleData) st = (Ok (), st') →
       rejected (articles_list db (byId_query id) st').1 →
       (updateArticle db now id articleData st).1 = None)
  ∧ (∀ id,
       rejected (articles_delete db id st).1 →
       (deleteArticle db id st).1 = false).
Proof.
  repeat split; intros;
    repeat match goal with
           | Hr : rejected (?call).1 |- _ =>
             let r := fresh "r" in let e := fresh "e" in let s := fresh "s" in
             destruct call as [[r|e] s] eqn:?; cbn in Hr; [destruct Hr|clear Hr]
           end.
  - unfold getArticles, try_catch, bind. by rewrite Heqp.
  - unfold getTrendingArticles, try_catch, bind. by rewrite Heqp.
  - unfold getRelatedArticles, try_catch, bind. by rewrite Heqp.
  - unfold getCategories, try_catch, bind. by rewrite Heqp.
  - unfold getArticleById, try_catch, bind. by rewrite Heqp.
  - unfold getFeaturedArticle, try_catch, bind. by rewrite Heqp.
  - unfold createArticle, try_catch, bind. by rewrite Heqp.
  - unfold updateArticle, try_catch, bind. by rewrite Heqp.
  - unfold updateArticle, getArticleById, try_catch, bind.
    rewrite H0. by rewrite Heqp.
  - unfold deleteArticle, try_catch, bind. by rewrite Heqp.
Qed.

Lemma remote_failure_safe_defaults_witness :
  let db := offline (H := IntNumber.ops) in
  (getArticles db ArticleFilters.empty ()).1 = []
  ∧ (getTrendingArticles db 3 ()).1 = []
  ∧ (getRelatedArticles db (js "a1") (js "ai") 3 ()).1 = []
  ∧ (getCategories db ()).1 = []
  ∧ (getArticleById db (js "a1") ()).1 = None
  ∧ (getFeaturedArticle db ()).1 = None
  ∧ (createArticle db Sample.env PartialArticle.empty ()).1 = None
  ∧ (updateArticle db (js "now") (js "a1") (PartialArticle.title_only (js "X")) ()).1 = None
  ∧ (deleteArticle db (js "a1") ()).1 = false.
Proof.
  intros db.
  destruct (remote_failure_safe_defaults db ())
    as (H1 & H2 & H3 & H4 & H5 & H6 & H7 & H8 & _ & H10).
  exact (conj (H1 _ I) (conj (H2 _ I) (conj (H3 _ _ _ I) (conj (H4 I)
          (conj (H5 _ I) (conj (H6 I) (conj (H7 _ _ I) (conj (H8 _ _ _ I)
          (H10 _ I))))))))).
Defined.

(** ** Records written by the service *)

Section Records.
Context `{JsNumber}.

Lemma ToBoolean_stringify (tags : list jsstring) :
  ToBoolean (VStr (JSON_stringify tags)) = true.
Proof. reflexivity. Qed.

Lemma parseTags_stringify (tags : list jsstring) :
  parseTags (VStr (JSON_stringify tags)) = JArray (JString <$> tags).
Proof.
  unfold parseTags, js_or. rewrite ToBoolean_stringify. cbn [ToString].
  now rewrite JSON_parse_stringify.
Qed.

Lemma parseTags_falsy (v : JsVal) : ToBoolean v = false → parseTags v = JArray [].
Proof. intros Hv. unfold parseTags, js_or. now rewrite Hv. Qed.

Lemma parseTags_unparseable (v : JsVal) :
  JSON_parse (ToString v) = None → parseTags v = JArray [].
Proof.
  intros Hv. destruct (ToBoolean v) eqn:Hb; [|now apply parseTags_falsy].
  unfold parseTags, js_or. now rewrite Hb, Hv.
Qed.

Lemma transformArticle_bound (dbArticle : DbRecord) :
  ∃ a, transformArticle ThisService dbArticle = Ok a
       ∧ Article.tags a = parseTags (get dbArticle "tags")
       ∧ Article.isAggregated a
         = num_gt0 (ToNumber (js_or (get dbArticle "isAggregated")
                                    (get dbArticle "is_aggregated")))
       ∧ Article.category a = get dbArticle "category"
       ∧ Article.title a = get dbArticle "title".
Proof. eexists. split; [reflexivity|]. done. Qed.

Lemma lookup_set_if_truthy (k k' : string) (x : option jsstring) (m : DbRecord) :
  set_if_truthy k x m !! k'
  = if decide (k = k')
    then (if opt_truthy x then Some (opt_str x) else m !! k')
    else m !! k'.
Proof.
  unfold set_if_truthy. destruct (opt_truthy x); case_decide; subst; try done.
  - by rewrite lookup_insert_eq.
  - by rewrite lookup_insert_ne.
Qed.

Lemma lookup_set_if_truthy_ne (k k' : string) (x : option jsstring) (m : DbRecord) :
  k ≠ k' → set_if_truthy k x m !! k' = m !! k'.
Proof. intros. rewrite lookup_set_if_truthy. by case_decide. Qed.

Lemma lookup_set_if_truthy_eq (k : string) (x : option jsstring) (m : DbRecord) :
  set_if_truthy k x m !! k = if opt_truthy x then Some (opt_str x) else m !! k.
Proof. rewrite lookup_set_if_truthy. by case_decide. Qed.

Lemma str_or_filled (supplied : option jsstring) (fallback : JsVal) :
  str_or supplied fallback = filled supplied fallback.
Proof. by destruct supplied as [[|c s]|]. Qed.

Lemma opt_truthy_filled (supplied : option jsstring) :
  (if opt_truthy supplied then Some (opt_str supplied) else None)
  = match supplied with
    | Some (c :: s) => Some (VStr (c :: s))
    | Some [] | None => None
    end.
Proof. by destruct supplied as [[|c s]|]. Qed.
End Records.

(** Reads one property of [update_record], once the two optional
    properties that are not strings have been case-split. *)
Ltac update_lookup :=
  unfold update_record; cbv zeta;
  repeat first
    [ rewrite lookup_set_if_truthy_ne by done
    | rewrite lookup_insert_ne by done
    | rewrite lookup_singleton_ne by done
    | rewrite lookup_set_if_truthy_eq
    | rewrite lookup_insert_eq
    | rewrite lookup_singleton_eq ].

(** ** What a sparse update writes *)

Section Updates.
Context `{JsNumber}.

Lemma opt_truthy_written (supplied : option jsstring) :
  (if opt_truthy supplied then Some (opt_str supplied) else None) = written supplied.
Proof. by destruct supplied as [[|c s]|]. Qed.

Lemma update_record_lookups (now : jsstring) (articleData : PartialArticle.t) :
  let updateData := update_record now articleData in
  updateData !! "updatedAt" = Some (VStr now)
  ∧ updateData !! "title" = written (PartialArticle.title articleData)
  ∧ updateData !! "content" = written (PartialArticle.content articleData)
  ∧ updateData !! "excerpt" = written (PartialArticle.excerpt articleData)
  ∧ updateData !! "author" = written (PartialArticle.author articleData)
  ∧ updateData !! "category" = written (PartialArticle.category articleData)
  ∧ updateData !! "categoryName" = written (PartialArticle.categoryName articleData)
  ∧ updateData !! "categoryColor" = written (PartialArticle.categoryColor articleData)
  ∧ updateData !! "featuredImage" = written (PartialArticle.featuredImage articleData)
  ∧ updateData !! "publishedAt" = written (PartialArticle.publishedAt articleData)
  ∧ updateData !! "readTime" = written (PartialArticle.readTime articleData)
  ∧ updateData !! "isAggregated"
    = (λ b : bool, VStr (if b then js "1" else js "0"))
        <$> PartialArticle.isAggregated articleData
  ∧ updateData !! "sourceName" = written (PartialArticle.sourceName articleData)
  ∧ updateData !! "sourceUrl" = written (PartialArticle.sourceUrl articleData)
  ∧ updateData !! "tags"
    = (λ tags, VStr (JSON_stringify tags)) <$> PartialArticle.tags articleData
  ∧ ∀ k, k ∉ update_keys → updateData !! k = None.
Proof.
  cbv zeta. unfold update_record.
  destruct (PartialArticle.tags articleData);
    destruct (PartialArticle.isAggregated articleData) as [[]|];
    repeat apply conj;
    try (intros k Hk; unfold update_keys in Hk;
         rewrite !not_elem_of_cons in Hk; destruct_and!);
    update_lookup; rewrite ?opt_truthy_written; done.
Qed.

Lemma update_record_tags (now : jsstring) (articleData : PartialArticle.t) :
  update_record now articleData !! "tags"
  = (λ tags, VStr (JSON_stringify tags)) <$> PartialArticle.tags articleData.
Proof. apply update_record_lookups. Qed.

Lemma update_record_isAggregated (now : jsstring) (articleData : PartialArticle.t) :
  update_record now articleData !! "isAggregated"
  = (λ b : bool, VStr (if b then js "1" else js "0"))
      <$> PartialArticle.isAggregated articleData.
Proof. apply update_record_lookups. Qed.
End Updates.

(** ** The document store: what a query returns *)

Section StoreFacts.
Context `{JsNumber}.

Lemma column_same (r : DbRecord) (k : string) :
  Store.snake_case k = k → Store.column r k = get r k.
Proof.
  intros Hk. unfold Store.column, get. rewrite Hk. by destruct (r !! k).
Qed.

Lemma text_is_true (v : JsVal) (s : jsstring) :
  Store.text_is v s = true ↔ v = VStr s.
Proof.
  destruct v; cbn; try (split; [done|discriminate]).
  rewrite bool_decide_eq_true. split; congruence.
Qed.

Lemma elem_of_filter_bool {A} (f : A → bool) (l : list A) (x : A) :
  x ∈ List.filter f l ↔ x ∈ l ∧ f x = true.
Proof. rewrite !list_elem_of_In. apply filter_In. Qed.

Lemma elem_of_list (rows : list DbRecord) (q : ListArgs) (r : DbRecord) :
  r ∈ Store.list rows q →
  r ∈ rows ∧ ∀ w, q_where q = Some w → Store.eval w r = true.
Proof.
  unfold Store.list, Store.page, Store.order, Store.select. intros Hr.
  destruct (q_limit q); [apply subseteq_take in Hr|];
    (destruct (q_orderBy q) as [[f d]|];
       [rewrite merge_sort_Permutation in Hr|]);
    (destruct (q_where q) as [w|];
       [apply elem_of_filter_bool in Hr as [? ?]; split; [done|by intros ? [= <-]]
       |split; [done|intros ? [=]]]).
Qed.

Lemma length_list (rows : list DbRecord) (q : ListArgs) (n : nat) :
  q_limit q = Some n → (length (Store.list rows q) ≤ n)%nat.
Proof. unfold Store.list, Store.page. intros ->. rewrite length_take. lia. Qed.


Lemma decode_flag `{!JsNumberLaws} (b : bool) :
  num_gt0 (ToNumber (VStr (flag_string b))) = b.
Proof.
  destruct b; cbn.
  - by rewrite StringToNumber_1, gt0_one.
  - by rewrite StringToNumber_0, gt0_zero.
Qed.

Lemma eval_conditions (cs : list Where) (r : DbRecord) (c : Where) :
  Store.eval (if (0 <? length cs)%nat then WAnd cs else WEmpty) r = true →
  c ∈ cs → Store.eval c r = true.
Proof.
  destruct cs as [|c0 cs]; [by intros _ ?%not_elem_of_nil|].
  change (0 <? length (c0 :: cs))%nat with true. cbv iota.
  cbn [Store.eval]. rewrite forallb_forall. intros Hall Hc.
  apply Hall. by apply list_elem_of_In.
Qed.

Lemma category_conditions_elem (c : jsstring) :
  c ≠ [] → c ≠ js "all" → category_conditions (Some c) = [WEq "category" c].
Proof.
  intros Hne Hall. unfold category_conditions.
  destruct c as [|u c]; [done|]. cbn [ToBoolean].
  by rewrite bool_decide_eq_false_2.
Qed.

(** With a search text the fetched records hold it in their title, excerpt,
    author or stored tags text. *)
Lemma getArticles_page_search (filters : ArticleFilters.t) (rows : list DbRecord)
    (s : jsstring) (r : DbRecord) :
  ArticleFilters.search filters = Some s → s ≠ [] →
  r ∈ Store.list rows (getArticles_query filters) →
  ∃ field text, field ∈ ["title"; "excerpt"; "author"; "tags"]%string
                ∧ Store.column r field = VStr text
                ∧ Store.contains text s = true.
Proof.
  intros Hs Hne Hr. apply elem_of_list in Hr as [_ Hw].
  specialize (Hw _ eq_refl).
  pose proof (eval_conditions _ r
    (WOr [WContains "title" s; WContains "excerpt" s;
          WContains "author" s; WContains "tags" s]) Hw) as Hor.
  rewrite Hs in Hor. destruct s as [|c s]; [done|].
  specialize (Hor ltac:(cbn [search_conditions ToBoolean]; set_solver)).
  cbn [Store.eval existsb] in Hor.
  repeat (apply orb_true_iff in Hor as [Hor|Hor]); [| | | |done].
  - destruct (Store.column r "title") as [| | | |text] eqn:Hf; try done.
    exists "title"%string, text. split; [set_solver|done].
  - destruct (Store.column r "excerpt") as [| | | |text] eqn:Hf; try done.
    exists "excerpt"%string, text. split; [set_solver|done].
  - destruct (Store.column r "author") as [| | | |text] eqn:Hf; try done.
    exists "author"%string, text. split; [set_solver|done].
  - destruct (Store.column r "tags") as [| | | |text] eqn:Hf; try done.
    exists "tags"%string, text. split; [set_solver|done].
Qed.
End StoreFacts.

(** ** The document store: updates *)

Section StoreUpdate.
Context `{JsNumber}.

Lemma transformArticle_normalized (r : DbRecord) :
  transformArticle ThisService r = Ok (normalized r).
Proof. reflexivity. Qed.

Lemma getArticleById_store (id : jsstring) (st : Store.t) :
  getArticleById Store.client id st
  = (normalized <$> head (List.filter (Store.has_id id) (Store.articles st)), st).
Proof.
  unfold getArticleById, try_catch, bind. cbn [articles_list Store.client].
  unfold Store.list, byId_query, Store.page, Store.order, Store.select.
  cbn [q_where q_orderBy q_limit].
  change (Store.eval (WEq "id" id)) with (Store.has_id id).
  by destruct (List.filter (Store.has_id id) (Store.articles st)).
Qed.

Lemma has_id_union (id : jsstring) (data r : DbRecord) :
  data !! "id" = None → Store.has_id id (data ∪ r) = Store.has_id id r.
Proof.
  intros Hd. unfold Store.has_id, Store.column, get.
  change (Store.snake_case "id") with "id"%string.
  by rewrite lookup_union_r.
Qed.

Lemma filter_has_id_update (id : jsstring) (data : DbRecord) (rows : list DbRecord) :
  data !! "id" = None →
  List.filter (Store.has_id id)
    ((λ r, if Store.has_id id r then data ∪ r else r) <$> rows)
  = (data ∪.) <$> List.filter (Store.has_id id) rows.
Proof.
  intros Hd. induction rows as [|r rows IH]; [done|]. cbn.
  destruct (Store.has_id id r) eqn:Hr; cbn.
  - rewrite has_id_union, Hr by done. cbn. by rewrite <- IH.
  - by rewrite Hr.
Qed.

Lemma update_record_id (now : jsstring) (articleData : PartialArticle.t) :
  update_record now articleData !! "id" = None.
Proof.
  unfold update_record; cbv zeta.
  destruct (PartialArticle.tags articleData);
    destruct (PartialArticle.isAggregated articleData) as [[]|];
    update_lookup; done.
Qed.

Lemma updateArticle_store (now id : jsstring) (articleData : PartialArticle.t)
    (st : Store.t) :
  updateArticle Store.client now id articleData st
  = (normalized <$> head ((update_record now articleData ∪.)
                            <$> List.filter (Store.has_id id) (Store.articles st)),
     Store.update id (update_record now articleData) st).
Proof.
  unfold updateArticle, try_catch, bind. cbn [articles_update Store.client].
  rewrite getArticleById_store. cbn [Store.update Store.articles].
  by rewrite filter_has_id_update by apply update_record_id.
Qed.

Lemma update_record_title_only (now x : jsstring) :
  x ≠ [] →
  update_record now (PartialArticle.title_only x)
  = <["title" := VStr x]> {["updatedAt" := VStr now]}.
Proof. by destruct x. Qed.

Lemma get_union (data r : DbRecord) (k : string) :
  get (data ∪ r) k = match data !! k with Some v => v | None => get r k end.
Proof.
  unfold get. destruct (data !! k) eqn:Hk.
  - by erewrite lookup_union_Some_l.
  - by rewrite lookup_union_r.
Qed.

Lemma normalized_title_update (now x : jsstring) (r : DbRecord) :
  x ≠ [] → now ≠ [] →
  normalized (update_record now (PartialArticle.title_only x) ∪ r)
  = Article.with_title_updatedAt (VStr x) (VStr now) (normalized r).
Proof.
  intros Hx Hnow. rewrite update_record_title_only by done.
  unfold normalized, transformArticle, Article.with_title_updatedAt.
  cbn [this_parseTags Article.id Article.title Article.content Article.excerpt
       Article.author Article.category Article.categoryName Article.categoryColor
       Article.featuredImage Article.publishedAt Article.readTime
       Article.isAggregated Article.sourceName Article.sourceUrl Article.tags
       Article.userId Article.createdAt Article.updatedAt].
  rewrite !get_union.
  repeat first [ rewrite lookup_insert_ne by done
               | rewrite lookup_singleton_ne by done
               | rewrite lookup_insert_eq | rewrite lookup_singleton_eq ].
  f_equal. by destruct now.
Qed.
End StoreUpdate.

Lemma IntNumber_laws : @JsNumberLaws IntNumber.ops.
Proof. by split. Qed.

(** ** Ordering *)

Lemma lex_leb_total (s t : jsstring) : Store.lex_leb s t = true ∨ Store.lex_leb t s = true.
Proof.
  revert t. induction s as [|a s IH]; intros [|b t]; cbn; auto.
  destruct (N.ltb_spec a b), (N.ltb_spec b a), (N.eqb_spec a b), (N.eqb_spec b a);
    cbn; auto; try lia.
Qed.

Lemma key_leb_total (a b : option jsstring) :
  Store.key_leb a b = true ∨ Store.key_leb b a = true.
Proof. destruct a, b; cbn; auto using lex_leb_total. Qed.

Section Ordering.
Context `{JsNumber}.

#[global] Instance before_total (field : string) (d : Direction) :
  Total (Store.before field d).
Proof.
  intros r1 r2. unfold Store.before.
  destruct d, (key_leb_total (Store.sort_key field r1) (Store.sort_key field r2));
    rewrite ?Is_true_true; auto.
Qed.

Lemma getCategories_store (st : Store.t) :
  getCategories Store.client st
  = (category_of <$> merge_sort (Store.before "name" Asc) (Store.categories st), st).
Proof.
  unfold getCategories, try_catch, bind, lift.
  cbn [categories_list Store.client].
  unfold Store.list, categories_query, Store.page, Store.order, Store.select.
  cbn [q_where q_orderBy q_limit].
  assert (Hmap : ∀ l : list DbRecord,
            Array_map (λ _ cat, Ok (category_of cat)) l = Ok (category_of <$> l)).
  { induction l as [|c l IH]; [done|]. cbn [Array_map]. by rewrite IH. }
  by rewrite Hmap.
Qed.
End Ordering.

(** ** The page of [getArticles] *)



(** ** Tags and the aggregated flag *)

Lemma created_tags `{JsNumber} (env : Env) (articleData : PartialArticle.t) :
  Article.tags (normalized (create_record env articleData))
  = JArray (JString <$> default [] (PartialArticle.tags articleData)).
Proof.
  change (Article.tags (normalized (create_record env articleData)))
    with (parseTags (get (create_record env articleData) "tags")).
  change (get (create_record env articleData) "tags")
    with (VStr (JSON_stringify (default [] (PartialArticle.tags articleData)))).
  apply parseTags_stringify.
Qed.

Lemma updated_tags `{JsNumber} (now : jsstring) (articleData : PartialArticle.t)
    (r : DbRecord) :
  Article.tags (normalized (update_record now articleData ∪ r))
  = match PartialArticle.tags articleData with
    | Some tags => JArray (JString <$> tags)
    | None => Article.tags (normalized r)
    end.
Proof.
  change (Article.tags (normalized (update_record now articleData ∪ r)))
    with (parseTags (get (update_record now articleData ∪ r) "tags")).
  change (Article.tags (normalized r)) with (parseTags (get r "tags")).
  rewrite get_union, update_record_tags.
  destruct (PartialArticle.tags articleData); [apply parseTags_stringify|done].
Qed.

(** C3: a list of tags serialized at write time and parsed back at read
    time is the same list, in the same order; a stored tags value that is
    not JSON text parses to the empty list. *)
Theorem tags_round_trip `{JsNumber} :
  (∀ tags : list jsstring,
     parseTags (VStr (JSON_stringify tags)) = JArray (JString <$> tags))
  ∧ (∀ env articleData,
       Article.tags (normalized (create_record env articleData))
       = JArray (JString <$> default [] (PartialArticle.tags articleData)))
  ∧ (∀ now articleData r,
       Article.tags (normalized (update_record now articleData ∪ r))
       = match PartialArticle.tags articleData with
         | Some tags => JArray (JString <$> tags)
         | None => Article.tags (normalized r)
         end)
  ∧ (∀ stored : JsVal,
       JSON_parse (ToString stored) = None → parseTags stored = JArray []).
Proof.
  repeat apply conj.
  - apply parseTags_stringify.
  - apply created_tags.
  - apply updated_tags.
  - apply parseTags_unparseable.
Qed.

Lemma tags_round_trip_witness :
  JSON_parse (ToString (H := IntNumber.ops) (VStr (js "ai, web"))) = None
  ∧ parseTags (H := IntNumber.ops) (VStr (js "ai, web")) = JArray [].
Proof.
  split; [reflexivity|].
  apply (tags_round_trip (H := IntNumber.ops)). reflexivity.
Defined.

(** C4: the flag is written as the string ["1"] for true and ["0"] for
    false by [createArticle], by [updateArticle] when a boolean is supplied
    and in the filter clause of [getArticles]; reading it back gives true
    exactly when the stored value, coerced to a number, is greater than
    zero. *)
Theorem isAggregated_flag_string `{JsNumber} :
  (∀ env articleData,
     create_record env articleData !! "isAggregated"
     = Some (VStr (if default false (PartialArticle.isAggregated articleData)
                   then js "1" else js "0")))
  ∧ (∀ now articleData,
       update_record now articleData !! "isAggregated"
       = (λ b : bool, VStr (if b then js "1" else js "0"))
           <$> PartialArticle.isAggregated articleData)
  ∧ (∀ category search (b : bool) limit offset,
       ∃ conditions,
         q_where (getArticles_query
                    (ArticleFilters.mk category search (Some b) limit offset))
         = Some (WAnd conditions)
         ∧ WEq "isAggregated" (if b then js "1" else js "0") ∈ conditions)
  ∧ (∀ this dbArticle a,
       transformArticle this dbArticle = Ok a →
       Article.isAggregated a = true
       ↔ num_gt0 (ToNumber (js_or (get dbArticle "isAggregated")
                                  (get dbArticle "is_aggregated"))) = true).
Proof.
  repeat apply conj.
  - reflexivity.
  - apply update_record_isAggregated.
  - intros category search b limit offset.
    exists (category_conditions category ++ search_conditions search
            ++ [WEq "isAggregated" (flag_string b)]).
    split; [|set_solver].
    unfold getArticles_query. cbn [q_where ArticleFilters.category
      ArticleFilters.search ArticleFilters.isAggregated aggregated_conditions].
    rewrite !length_app. cbn [length].
    by replace (0 <? _)%nat with true by (symmetry; apply Nat.ltb_lt; lia).
  - by intros [] dbArticle a [= <-].
Qed.

Lemma isAggregated_flag_string_witness :
  Article.isAggregated (normalized (H := IntNumber.ops) Sample.thursday) = true
  ↔ num_gt0 (ToNumber (js_or (get Sample.thursday "isAggregated")
                             (get Sample.thursday "is_aggregated"))) = true.
Proof.
  apply (isAggregated_flag_string (H := IntNumber.ops)) with (this := ThisService).
  reflexivity.
Defined.

(** ** Sparse update *)

(** C6, as the claim states it, fails: a supplied [false] is written.
    [updateArticle(id, { isAggregated: false })] puts ["0"] under
    [isAggregated] in the object it sends to the store. *)
Lemma updateArticle_writes_false_flag :
  PartialArticle.isAggregated (PartialArticle.flag_only false) = Some false
  ∧ update_record (H := IntNumber.ops) (js "2024-06-01T00:00:00.000Z")
      (PartialArticle.flag_only false) !! "isAggregated"
    = Some (VStr (js "0")).
Proof. split; reflexivity. Qed.

(** C6, amended: [updateArticle] writes a text field exactly when a
    non-empty text is supplied for it, writes the flag whenever a boolean is
    supplied ([false] as ["0"]) and the tags whenever a list is supplied,
    always writes [updatedAt], and writes nothing else; in the store every
    record keeps the properties that were not written, and records with
    another id are untouched; so updating the title alone and reading the
    article back gives the old article with the new title and the new
    [updatedAt]. *)
Theorem updateArticle_sparse `{JsNumber} (now id : jsstring)
    (articleData : PartialArticle.t) (st : Store.t) :
  let updateData := update_record now articleData in
  let st' := (updateArticle Store.client now id articleData st).2 in
  (updateData !! "updatedAt" = Some (VStr now)
   ∧ updateData !! "title" = written (PartialArticle.title articleData)
   ∧ updateData !! "content" = written (PartialArticle.content articleData)
   ∧ updateData !! "excerpt" = written (PartialArticle.excerpt articleData)
   ∧ updateData !! "author" = written (PartialArticle.author articleData)
   ∧ updateData !! "category" = written (PartialArticle.category articleData)
   ∧ updateData !! "categoryName" = written (PartialArticle.categoryName articleData)
   ∧ updateData !! "categoryColor" = written (PartialArticle.categoryColor articleData)
   ∧ updateData !! "featuredImage" = written (PartialArticle.featuredImage articleData)
   ∧ updateData !! "publishedAt" = written (PartialArticle.publishedAt articleData)
   ∧ updateData !! "readTime" = written (PartialArticle.readTime articleData)
   ∧ updateData !! "isAggregated"
     = (λ b : bool, VStr (if b then js "1" else js "0"))
         <$> PartialArticle.isAggregated articleData
   ∧ updateData !! "sourceName" = written (PartialArticle.sourceName articleData)
   ∧ updateData !! "sourceUrl" = written (PartialArticle.sourceUrl articleData)
   ∧ updateData !! "tags"
     = (λ tags, VStr (JSON_stringify tags)) <$> PartialArticle.tags articleData
   ∧ ∀ k, k ∉ update_keys → updateData !! k = None)
  ∧ (Store.categories st' = Store.categories st
     ∧ ∀ (i : nat) (r : DbRecord), Store.articles st !! i = Some r →
         ∃ r', Store.articles st' !! i = Some r'
               ∧ (Store.has_id id r = false → r' = r)
               ∧ (∀ k, updateData !! k = None → r' !! k = r !! k)
               ∧ (Store.has_id id r = true →
                  ∀ k v, updateData !! k = Some v → r' !! k = Some v))
  ∧ (∀ (x : jsstring) (a : Article.t),
       x ≠ [] → now ≠ [] →
       (getArticleById Store.client id st).1 = Some a →
       let '(result, after) :=
         updateArticle Store.client now id (PartialArticle.title_only x) st in
       result = Some (Article.with_title_updatedAt (VStr x) (VStr now) a)
       ∧ (getArticleById Store.client id after).1 = result).
Proof.
  cbv zeta. split; [apply update_record_lookups|]. split; [split|].
  - by rewrite updateArticle_store.
  - intros i r Hi. rewrite updateArticle_store. cbn [snd Store.update Store.articles].
    rewrite list_lookup_fmap, Hi. cbn [fmap option_fmap option_map].
    eexists. split; [reflexivity|].
    destruct (Store.has_id id r); repeat apply conj; try done.
    + intros k Hk. by rewrite lookup_union_r.
    + intros _ k v Hk. by erewrite lookup_union_Some_l.
  - intros x a Hx Hnow. rewrite getArticleById_store, updateArticle_store.
    cbn [fst]. rewrite getArticleById_store. cbn [fst Store.update Store.articles].
    rewrite filter_has_id_update by apply update_record_id.
    destruct (List.filter (Store.has_id id) (Store.articles st)) as [|r rest];
      [done|].
    cbn [head fmap list_fmap option_fmap option_map].
    intros [= <-]. by rewrite normalized_title_update.
Qed.

Lemma updateArticle_sparse_witness :
  let now := js "2024-06-01T00:00:00.000Z" in
  let '(result, after) :=
    updateArticle Sample.client now (js "a3")
      (PartialArticle.title_only (js "X")) Sample.four_articles in
  result = Some (Article.with_title_updatedAt (VStr (js "X")) (VStr now)
                   (normalized Sample.wednesday))
  ∧ (getArticleById Sample.client (js "a3") after).1 = result.
Proof.
  cbv zeta.
  apply (updateArticle_sparse (H := IntNumber.ops)
           (js "2024-06-01T00:00:00.000Z") (js "a3") PartialArticle.empty
           Sample.four_articles);
    [discriminate|discriminate|reflexivity].
Defined.

(** ** Creation *)

(** C7, as the claim states it, fails: its list of defaults gives the empty
    string to every field it does not name, but an omitted [userId] is
    filled with ["user"] and an omitted [sourceName] or [sourceUrl] with
    [null]. *)
Lemma createArticle_defaults_outside_the_list :
  let record := create_record (H := IntNumber.ops) Sample.env PartialArticle.empty in
  record !! "userId" = Some (VStr (js "user"))
  ∧ record !! "userId" ≠ Some (VStr [])
  ∧ record !! "sourceName" = Some VNull
  ∧ record !! "sourceUrl" = Some VNull.
Proof. by repeat apply conj. Qed.

(** C7, amended: [createArticle] builds the id from ["article_"], the
    timestamp and nine characters of the random suffix; fills every omitted
    (or empty) field with its default: the empty string for title, content,
    excerpt, author, category, categoryName and featuredImage, ["#2563eb"]
    for categoryColor, today's date for publishedAt, ["5 min read"] for
    readTime, [null] for sourceName and sourceUrl, ["user"] for userId, no
    tags and a false flag; writes the flag as ["1"] or ["0"] and the tags as
    JSON text; stamps createdAt and updatedAt; writes the record and returns
    its normalized form; and returns null when the write fails. *)
Theorem createArticle_defaults_round_trip `{JsNumber} (env : Env)
    (articleData : PartialArticle.t) :
  let record := create_record env articleData in
  record = list_to_map [
    ("id", VStr (js "article_" ++ NumberToString (Date_now env) ++ js "_"
                 ++ take 9 (drop 2 (Math_random_36 env))));
    ("title", filled (PartialArticle.title articleData) (VStr []));
    ("content", filled (PartialArticle.content articleData) (VStr []));
    ("excerpt", filled (PartialArticle.excerpt articleData) (VStr []));
    ("author", filled (PartialArticle.author articleData) (VStr []));
    ("category", filled (PartialArticle.category articleData) (VStr []));
    ("categoryName", filled (PartialArticle.categoryName articleData) (VStr []));
    ("categoryColor",
       filled (PartialArticle.categoryColor articleData) (VStr (js "#2563eb")));
    ("featuredImage", filled (PartialArticle.featuredImage articleData) (VStr []));
    ("publishedAt",
       filled (PartialArticle.publishedAt articleData)
              (VStr (split_head 84 (iso_published env))));
    ("readTime", filled (PartialArticle.readTime articleData) (VStr (js "5 min read")));
    ("isAggregated",
       VStr (if default false (PartialArticle.isAggregated articleData)
             then js "1" else js "0"));
    ("sourceName", filled (PartialArticle.sourceName articleData) VNull);
    ("sourceUrl", filled (PartialArticle.sourceUrl articleData) VNull);
    ("tags", VStr (JSON_stringify (default [] (PartialArticle.tags articleData))));
    ("userId", filled (PartialArticle.userId articleData) (VStr (js "user")));
    ("createdAt", VStr (iso_created env));
    ("updatedAt", VStr (iso_updated env))
  ]
  ∧ (∀ st : Store.t,
       createArticle Store.client env articleData st
       = (Some (normalized record), Store.create record st)
       ∧ transformArticle ThisService record = Ok (normalized record)
       ∧ Store.articles (Store.create record st) = Store.articles st ++ [record])
  ∧ Article.tags (normalized record)
    = JArray (JString <$> default [] (PartialArticle.tags articleData))
  ∧ (∀ (S : Type) (db : DbClient S) (st : S),
       rejected (articles_create db record st).1 →
       (createArticle db env articleData st).1 = None).
Proof.
  cbv zeta. repeat apply conj.
  - unfold create_record, new_id, substr. by rewrite !str_or_filled.
  - by intros st.
  - apply created_tags.
  - intros S db st Hr. unfold createArticle, try_catch, bind.
    by destruct (articles_create db _ st) as [[r|e] st'].
Qed.

Lemma createArticle_defaults_round_trip_witness :
  (createArticle (offline (H := IntNumber.ops)) Sample.env PartialArticle.empty ()).1
  = None.
Proof.
  by apply (createArticle_defaults_round_trip (H := IntNumber.ops)).
Defined.

(** The record written for an empty input, and the article handed back. *)
Lemma createArticle_empty_input :
  let record := create_record (H := IntNumber.ops) Sample.env PartialArticle.empty in
  get record "id" = VStr (js "article_1700000000000_4fzyo82mv")
  ∧ get record "publishedAt" = VStr (js "2024-05-06")
  ∧ get record "tags" = VStr (js "[]")
  ∧ get record "isAggregated" = VStr (js "0")
  ∧ (createArticle Sample.client Sample.env PartialArticle.empty
       (Store.mk _ [] [])).1
    = Some (normalized record).
Proof. by repeat apply conj. Qed.

(** ** Categories *)

(** C9: [getCategories] returns all categories ordered by name ascending,
    and normalizes each field on its own: whichever field it is, when the
    record lacks the camelCase property and holds the snake_case one, the
    field has the snake_case value.  Field by field: [userId] and
    [createdAt] are read from [user_id] and [created_at] when the camelCase
    property is absent; [id], [name] and [color] are spelled the same in
    both forms and are copied; [description], also spelled the same in both,
    is the empty string when absent. *)
Theorem getCategories_sorted_normalized `{JsNumber} (st : Store.t) :
  (∃ sorted : list DbRecord,
     (getCategories Store.client st).1 = category_of <$> sorted
     ∧ sorted ≡ₚ Store.categories st
     ∧ Sorted (Store.before "name" Asc) sorted)
  ∧ (∀ (cat : DbRecord) (field : string) (read : Category.t → JsVal)
       (value : JsVal),
       (field, read) ∈ Category.fields →
       cat !! field = None →
       cat !! Store.snake_case field = Some value →
       read (category_of cat) = value)
  ∧ ∀ cat : DbRecord,
      Category.id (category_of cat) = get cat "id"
      ∧ Category.name (category_of cat) = get cat "name"
      ∧ Category.color (category_of cat) = get cat "color"
      ∧ (cat !! "userId" = None →
         Category.userId (category_of cat) = get cat "user_id")
      ∧ (cat !! "createdAt" = None →
         Category.createdAt (category_of cat) = get cat "created_at")
      ∧ (cat !! "description" = None →
         Category.description (category_of cat) = VStr []).
Proof.
  refine (conj _ (conj _ _)).
  - exists (merge_sort (Store.before "name" Asc) (Store.categories st)).
    rewrite getCategories_store. repeat apply conj; [done| |].
    + apply merge_sort_Permutation.
    + apply (Sorted_merge_sort _).
  - intros cat field read value Hfield Hcamel Hsnake.
    unfold Category.fields in Hfield.
    repeat (apply elem_of_cons in Hfield as [[= -> ->]|Hfield]);
      [..|by apply not_elem_of_nil in Hfield];
      match type of Hsnake with
      | context [Store.snake_case ?k] =>
        let k' := eval vm_compute in (Store.snake_case k) in
        change (Store.snake_case k) with k' in Hsnake
      end;
      try congruence;
      cbn; unfold get; by rewrite Hcamel, Hsnake.
  - intros cat. repeat apply conj; try done.
    all: intros Hcat; cbn; unfold get at 1; by rewrite Hcat.
Qed.

Lemma getCategories_sorted_normalized_witness :
  (getCategories Sample.client Sample.four_articles).1
  = [category_of Sample.ai_category; category_of Sample.web_category]
  ∧ Category.userId (category_of (H := IntNumber.ops) Sample.web_category)
    = VStr (js "u1")
  ∧ Category.userId (category_of (H := IntNumber.ops) Sample.web_category)
    = get Sample.web_category "user_id"
  ∧ Category.createdAt (category_of (H := IntNumber.ops) Sample.web_category)
    = get Sample.web_category "created_at"
  ∧ Category.description (category_of (H := IntNumber.ops) Sample.ai_category)
    = VStr [].
Proof.
  split; [reflexivity|].
  pose proof (getCategories_sorted_normalized (H := IntNumber.ops)
                Sample.four_articles) as (_ & Hsnake & Hfields).
  destruct (Hfields Sample.web_category) as (_ & _ & _ & Hu & Hc & _).
  destruct (Hfields Sample.ai_category) as (_ & _ & _ & _ & _ & Hd).
  refine (conj _ (conj (Hu eq_refl) (conj (Hc eq_refl) (Hd eq_refl)))).
  apply (Hsnake Sample.web_category "userId"%string Category.userId).
  - unfold Category.fields.
    do 4 apply list_elem_of_further. apply list_elem_of_here.
  - reflexivity.
  - reflexivity.
Defined.

(** ** The list operations, run *)

Section AnyClientLists.
Context `{JsNumber} {S : Type} (db : DbClient S).

Lemma getTrendingArticles_unfold (limit : nat) (st : S) :
  getTrendingArticles db limit st
  = ([], (articles_list db (trending_query limit) st).2).
Proof.
  unfold getTrendingArticles, try_catch, bind, lift.
  destruct (articles_list db (trending_query limit) st) as [[l|e] st']; [|done].
  rewrite Array_map_transformArticle. by destruct (drop 1 l).
Qed.

Lemma getRelatedArticles_unfold (articleId category : jsstring) (limit : nat) (st : S) :
  getRelatedArticles db articleId category limit st
  = ([], (articles_list db (related_query articleId category limit) st).2).
Proof.
  unfold getRelatedArticles, try_catch, bind, lift.
  destruct (articles_list db _ st) as [[l|e] st']; [|done].
  rewrite Array_map_transformArticle. by destruct l.
Qed.
End AnyClientLists.

(** C5: with no filters the store is asked for the 20 most recent articles,
    newest first, and answers with them; [getArticles] then maps the unbound
    [transformArticle] over the page, the callback throws, and the caller
    gets the empty sequence.  The bound call of the sibling
    [getFeaturedArticle] normalizes the same newest record. *)
Theorem getArticles_no_filters_run :
  getArticles_query (H := IntNumber.ops) ArticleFilters.empty
  = {| q_where := Some WEmpty; q_orderBy := Some ("publishedAt", Desc);
       q_limit := Some 20%nat |}
  ∧ Store.list (H := IntNumber.ops) (Store.articles Sample.four_articles)
      (getArticles_query (H := IntNumber.ops) ArticleFilters.empty)
    = [Sample.thursday; Sample.wednesday; Sample.tuesday; Sample.monday]
  ∧ (getArticles Sample.client ArticleFilters.empty Sample.four_articles).1 = []
  ∧ (getFeaturedArticle Sample.client Sample.four_articles).1
    = Some (normalized Sample.thursday).
Proof. repeat apply conj; reflexivity. Qed.

(** C8: on a store of four articles [getTrendingArticles(3)] fetches four
    records, newest first, and drops the first; mapping the unbound
    [transformArticle] over the three that remain throws, and the caller
    gets the empty sequence instead of three records. *)
Theorem getTrendingArticles_run :
  trending_query 3
  = {| q_where := None; q_orderBy := Some ("publishedAt", Desc);
       q_limit := Some 4%nat |}
  ∧ drop 1 (Store.list (H := IntNumber.ops) (Store.articles Sample.four_articles) (trending_query 3))
    = [Sample.wednesday; Sample.tuesday; Sample.monday]
  ∧ (getTrendingArticles Sample.client 3 Sample.four_articles).1 = []
  ∧ (getTrendingArticles Sample.client 3 Sample.one_article).1 = [].
Proof. repeat apply conj; reflexivity. Qed.

(** * Further properties of the service and of the pages *)

(** ** Reading, deleting and creating on the document store *)

Section StoreReads.
Context `{JsNumber}.

Lemma has_id_get (id : jsstring) (r : DbRecord) :
  Store.has_id id r = true ↔ get r "id" = VStr id.
Proof. unfold Store.has_id. by rewrite text_is_true, column_same. Qed.

Lemma has_id_other (id id' : jsstring) (r : DbRecord) :
  id ≠ id' → Store.has_id id' r = true → Store.has_id id r = false.
Proof.
  intros Hne Hr. apply has_id_get in Hr.
  destruct (Store.has_id id r) eqn:Hid; [|done].
  apply has_id_get in Hid. congruence.
Qed.

Lemma head_filter_None {A} (f : A → bool) (l : list A) :
  head (List.filter f l) = None ↔ ∀ x, x ∈ l → f x = false.
Proof.
  induction l as [|x l IH]; cbn.
  - split; [by intros _ ? ?%not_elem_of_nil|done].
  - destruct (f x) eqn:Hx; cbn.
    + split; [done|]. intros Hall. rewrite Hall in Hx; [done|]. by left.
    + rewrite IH. split.
      * intros Hall y [->|Hy]%elem_of_cons; auto.
      * intros Hall y Hy. apply Hall. by right.
Qed.

Lemma head_filter_Some {A} (f : A → bool) (l : list A) (x : A) :
  head (List.filter f l) = Some x →
  ∃ before after, l = before ++ x :: after ∧ f x = true
                  ∧ ∀ y, y ∈ before → f y = false.
Proof.
  induction l as [|y l IH]; cbn; [done|].
  destruct (f y) eqn:Hy; cbn.
  - intros [= ->]. exists [], l. repeat split; [done|]. by intros ? ?%not_elem_of_nil.
  - intros (before & after & -> & Hx & Hb)%IH.
    exists (y :: before), after. repeat split; [done|].
    intros z [->|Hz]%elem_of_cons; auto.
Qed.
End StoreReads.

(** X1: [getArticleById] against the store: the store is left as it was; the
    answer is null exactly when no record has the id; otherwise it is the
    normalized form of the first record with that id, and its id is the one
    asked for. *)
Theorem getArticleById_lookup `{JsNumber} (id : jsstring) (st : Store.t) :
  (getArticleById Store.client id st).2 = st
  ∧ ((getArticleById Store.client id st).1 = None
     ↔ ∀ r, r ∈ Store.articles st → Store.has_id id r = false)
  ∧ ∀ a, (getArticleById Store.client id st).1 = Some a →
      Article.id a = VStr id
      ∧ ∃ before r after,
          Store.articles st = before ++ r :: after
          ∧ a = normalized r
          ∧ get r "id" = VStr id
          ∧ ∀ r', r' ∈ before → Store.has_id id r' = false.
Proof.
  rewrite getArticleById_store. cbn [fst snd]. refine (conj eq_refl (conj _ _)).
  - rewrite fmap_None. apply head_filter_None.
  - intros a (r & Hr & ->)%fmap_Some.
    apply head_filter_Some in Hr as (before & after & Hst & Hid & Hb).
    apply has_id_get in Hid. split; [done|]. by exists before, r, after.
Qed.

Lemma getArticleById_lookup_witness :
  Article.id (normalized (H := IntNumber.ops) Sample.tuesday) = VStr (js "a2").
Proof.
  by apply (getArticleById_lookup (H := IntNumber.ops) (js "a2") Sample.four_articles).
Defined.

Section StoreWrites.
Context `{JsNumber}.

Lemma deleteArticle_store (id : jsstring) (st : Store.t) :
  deleteArticle Store.client id st = (true, Store.delete id st).
Proof. reflexivity. Qed.

Lemma filter_has_id_delete (id id' : jsstring) (rows : list DbRecord) :
  id ≠ id' →
  List.filter (Store.has_id id') (List.filter (λ r, negb (Store.has_id id r)) rows)
  = List.filter (Store.has_id id') rows.
Proof.
  intros Hne. induction rows as [|r rows IH]; [done|]. cbn.
  destruct (Store.has_id id r) eqn:Hid; cbn.
  - rewrite (has_id_other id' id r) by done. done.
  - destruct (Store.has_id id' r); cbn; by rewrite IH.
Qed.

Lemma filter_has_id_deleted (id : jsstring) (rows : list DbRecord) :
  List.filter (Store.has_id id) (List.filter (λ r, negb (Store.has_id id r)) rows) = [].
Proof.
  induction rows as [|r rows IH]; [done|]. cbn.
  destruct (Store.has_id id r) eqn:Hid; cbn; [done|]. by rewrite Hid.
Qed.

Lemma update_absent (id : jsstring) (data : DbRecord) (st : Store.t) :
  (∀ r, r ∈ Store.articles st → Store.has_id id r = false) →
  Store.update id data st = st.
Proof.
  destruct st as [rows cats]. cbn. intros Hall. unfold Store.update. cbn. f_equal.
  induction rows as [|r rows IH]; [done|]. cbn.
  rewrite (Hall r) by by left. f_equal. apply IH. intros r' Hr'. apply Hall. by right.
Qed.

Lemma has_id_created (env : Env) (articleData : PartialArticle.t) :
  Store.has_id (new_id env) (create_record env articleData) = true.
Proof. by apply has_id_get. Qed.

Lemma filter_app_bool {A} (f : A → bool) (l1 l2 : list A) :
  List.filter f (l1 ++ l2) = List.filter f l1 ++ List.filter f l2.
Proof. induction l1 as [|x l1 IH]; [done|]. cbn. destruct (f x); cbn; by rewrite IH. Qed.

Lemma filter_none {A} (f : A → bool) (l : list A) :
  (∀ x, x ∈ l → f x = false) → List.filter f l = [].
Proof.
  induction l as [|x l IH]; [done|]. intros Hall. cbn.
  rewrite (Hall x) by by left. apply IH. intros y Hy. apply Hall. by right.
Qed.
End StoreWrites.

(** X2: [deleteArticle] against the store answers true, removes every record
    with the id and nothing else; afterwards [getArticleById] of that id is
    null, and of any other id is what it was before. *)
Theorem deleteArticle_then_lookup `{JsNumber} (id : jsstring) (st : Store.t) :
  let '(ok, after) := deleteArticle Store.client id st in
  ok = true
  ∧ Store.categories after = Store.categories st
  ∧ (∀ r, r ∈ Store.articles after
          ↔ r ∈ Store.articles st ∧ Store.has_id id r = false)
  ∧ (getArticleById Store.client id after).1 = None
  ∧ ∀ other, other ≠ id →
      (getArticleById Store.client other after).1
      = (getArticleById Store.client other st).1.
Proof.
  rewrite deleteArticle_store. refine (conj eq_refl (conj eq_refl (conj _ (conj _ _)))).
  - intros r. cbn [Store.delete Store.articles]. rewrite elem_of_filter_bool.
    by rewrite negb_true_iff.
  - rewrite getArticleById_store. cbn [fst Store.delete Store.articles].
    by rewrite filter_has_id_deleted.
  - intros other Hne. rewrite !getArticleById_store.
    cbn [fst Store.delete Store.articles]. by rewrite filter_has_id_delete.
Qed.

Lemma deleteArticle_then_lookup_witness :
  (getArticleById Sample.client (js "a3")
     (deleteArticle Sample.client (js "a2") Sample.four_articles).2).1
  = (getArticleById Sample.client (js "a3") Sample.four_articles).1.
Proof.
  by apply (deleteArticle_then_lookup (H := IntNumber.ops) (js "a2") Sample.four_articles).
Defined.

(** X3: [createArticle] followed by [getArticleById] of the new id: when no
    stored record already has that id, the lookup returns the article that
    [createArticle] returned. *)
Theorem createArticle_then_lookup `{JsNumber} (env : Env)
    (articleData : PartialArticle.t) (st : Store.t) :
  (∀ r, r ∈ Store.articles st → Store.has_id (new_id env) r = false) →
  let '(created, after) := createArticle Store.client env articleData st in
  created = Some (normalized (create_record env articleData))
  ∧ (getArticleById Store.client (new_id env) after).1 = created.
Proof.
  intros Hfresh.
  change (createArticle Store.client env articleData st)
    with (Some (normalized (create_record env articleData)),
          Store.create (create_record env articleData) st).
  split; [done|]. rewrite getArticleById_store.
  cbn [fst Store.create Store.articles].
  rewrite filter_app_bool, (filter_none _ _ Hfresh).
  change (List.filter (Store.has_id (new_id env)) [create_record env articleData])
    with (if Store.has_id (new_id env) (create_record env articleData)
          then [create_record env articleData] else []).
  by rewrite has_id_created.
Qed.

Lemma createArticle_then_lookup_witness :
  let '(created, after) :=
    createArticle Sample.client Sample.env PartialArticle.empty Sample.four_articles in
  created = Some (normalized (create_record Sample.env PartialArticle.empty))
  ∧ (getArticleById Sample.client (new_id Sample.env) after).1 = created.
Proof.
  apply (createArticle_then_lookup (H := IntNumber.ops)).
  intros r Hr. cbn in Hr. rewrite !elem_of_cons in Hr.
  destruct Hr as [->|[->|[->|[->|Hr]]]]; [reflexivity..|].
  by apply not_elem_of_nil in Hr.
Defined.

(** X4: [updateArticle] against the store returns what [getArticleById]
    returns right after it; that is null exactly when no record has the id,
    and then the store is left as it was. *)
Theorem updateArticle_read_back `{JsNumber} (now id : jsstring)
    (articleData : PartialArticle.t) (st : Store.t) :
  let '(result, after) := updateArticle Store.client now id articleData st in
  getArticleById Store.client id after = (result, after)
  ∧ (result = None ↔ ∀ r, r ∈ Store.articles st → Store.has_id id r = false)
  ∧ (result = None → after = st).
Proof.
  rewrite updateArticle_store, getArticleById_store.
  cbn [Store.update Store.articles].
  rewrite filter_has_id_update by apply update_record_id.
  assert (Hnone :
    normalized <$> head ((update_record now articleData ∪.)
                           <$> List.filter (Store.has_id id) (Store.articles st)) = None
    ↔ ∀ r, r ∈ Store.articles st → Store.has_id id r = false).
  { rewrite <- head_filter_None.
    by destruct (List.filter (Store.has_id id) (Store.articles st)). }
  refine (conj eq_refl (conj Hnone _)).
  intros Hr. apply update_absent. by apply Hnone.
Qed.

Lemma updateArticle_read_back_witness :
  (updateArticle Sample.client (js "2024-06-01T00:00:00.000Z") (js "a9")
     (PartialArticle.title_only (js "X")) Sample.four_articles).2
  = Sample.four_articles.
Proof.
  by apply (updateArticle_read_back (H := IntNumber.ops)
              (js "2024-06-01T00:00:00.000Z") (js "a9")
              (PartialArticle.title_only (js "X")) Sample.four_articles).
Defined.

(** X5: the article [createArticle] hands back when the store returns what
    was written.  Title, content, excerpt, author and category come back as
    written, the empty string when omitted; an omitted categoryName,
    featuredImage, sourceName or sourceUrl comes back [undefined], because
    the empty string and [null] written for them are falsy and the read falls
    through to a snake_case property that is not there; the flag and the tags
    come back as supplied. *)
Theorem createArticle_returned_article `{JsNumber} `{!JsNumberLaws} (env : Env)
    (articleData : PartialArticle.t) :
  normalized (create_record env articleData)
  = {| Article.id := VStr (new_id env);
       Article.title := filled (PartialArticle.title articleData) (VStr []);
       Article.content := filled (PartialArticle.content articleData) (VStr []);
       Article.excerpt := filled (PartialArticle.excerpt articleData) (VStr []);
       Article.author := filled (PartialArticle.author articleData) (VStr []);
       Article.category := filled (PartialArticle.category articleData) (VStr []);
       Article.categoryName := present (PartialArticle.categoryName articleData);
       Article.categoryColor :=
         filled (PartialArticle.categoryColor articleData) (VStr (js "#2563eb"));
       Article.featuredImage := present (PartialArticle.featuredImage articleData);
       Article.publishedAt :=
         js_or (filled (PartialArticle.publishedAt articleData)
                       (VStr (split_head 84 (iso_published env))))
               VUndefined;
       Article.readTime :=
         filled (PartialArticle.readTime articleData) (VStr (js "5 min read"));
       Article.isAggregated := default false (PartialArticle.isAggregated articleData);
       Article.sourceName := present (PartialArticle.sourceName articleData);
       Article.sourceUrl := present (PartialArticle.sourceUrl articleData);
       Article.tags :=
         JArray (JString <$> default [] (PartialArticle.tags articleData));
       Article.userId := filled (PartialArticle.userId articleData) (VStr (js "user"));
       Article.createdAt := js_or (VStr (iso_created env)) VUndefined;
       Article.updatedAt := js_or (VStr (iso_updated env)) VUndefined |}.
Proof.
  pose proof (created_tags env articleData) as Htags.
  destruct articleData as [id0 title content excerpt author category categoryName
    categoryColor featuredImage publishedAt readTime isAggregated sourceName
    sourceUrl tags userId createdAt0 updatedAt0].
  unfold normalized, transformArticle in *. cbn [this_parseTags] in *.
  cbn [Article.tags] in Htags. f_equal.
  - by destruct title as [[|??]|].
  - by destruct content as [[|??]|].
  - by destruct excerpt as [[|??]|].
  - by destruct author as [[|??]|].
  - by destruct category as [[|??]|].
  - by destruct categoryName as [[|??]|].
  - by destruct categoryColor as [[|??]|].
  - by destruct featuredImage as [[|??]|].
  - by destruct publishedAt as [[|??]|].
  - by destruct readTime as [[|??]|].
  - destruct isAggregated as [[]|].
    + exact (decode_flag true).
    + exact (decode_flag false).
    + exact (decode_flag false).
  - by destruct sourceName as [[|??]|].
  - by destruct sourceUrl as [[|??]|].
  - exact Htags.
  - by destruct userId as [[|??]|].
Qed.

Lemma createArticle_returned_article_witness :
  Article.categoryName
    (normalized (H := IntNumber.ops) (create_record Sample.env PartialArticle.empty))
  = VUndefined
  ∧ Article.title (normalized (create_record Sample.env PartialArticle.empty))
    = VStr [].
Proof.
  rewrite (createArticle_returned_article (H := IntNumber.ops)
             (H0 := IntNumber_laws) Sample.env PartialArticle.empty).
  by split.
Defined.

Lemma lex_leb_trans (s t u : jsstring) :
  Store.lex_leb s t = true → Store.lex_leb t u = true → Store.lex_leb s u = true.
Proof.
  revert t u. induction s as [|a s IH]; intros [|b t] [|c u]; cbn; try done.
  rewrite !orb_true_iff, !andb_true_iff, !N.ltb_lt, !N.eqb_eq.
  intros [Hab|[-> Hst]] [Hbc|[-> Htu]].
  - left. lia.
  - by left.
  - by left.
  - right. split; [done|]. by eapply IH.
Qed.

Lemma key_leb_trans (a b c : option jsstring) :
  Store.key_leb a b = true → Store.key_leb b c = true → Store.key_leb a c = true.
Proof. destruct a, b, c; cbn; try done. apply lex_leb_trans. Qed.

Section Featured.
Context `{JsNumber}.

#[global] Instance before_trans (field : string) (d : Direction) :
  Transitive (Store.before field d).
Proof.
  intros r1 r2 r3. unfold Store.before. destruct d; rewrite !Is_true_true.
  - apply key_leb_trans.
  - intros H12 H23. by eapply key_leb_trans.
Qed.

Lemma getFeaturedArticle_store (st : Store.t) :
  getFeaturedArticle Store.client st
  = (normalized <$> head (merge_sort (Store.before "publishedAt" Desc)
                            (Store.articles st)), st).
Proof.
  unfold getFeaturedArticle, try_catch, bind. cbn [articles_list Store.client].
  unfold Store.list, featured_query, Store.page, Store.order, Store.select.
  cbn [q_where q_orderBy q_limit].
  by destruct (merge_sort _ _).
Qed.
End Featured.

(** X6: [getFeaturedArticle] against the store leaves it as it was, answers
    null exactly when there is no article, and otherwise answers the
    normalized form of a stored record that no stored record is newer than,
    in the store's order of [publishedAt]. *)
Theorem getFeaturedArticle_newest `{JsNumber} (st : Store.t) :
  (getFeaturedArticle Store.client st).2 = st
  ∧ ((getFeaturedArticle Store.client st).1 = None ↔ Store.articles st = [])
  ∧ ∀ a, (getFeaturedArticle Store.client st).1 = Some a →
      ∃ r, r ∈ Store.articles st
           ∧ a = normalized r
           ∧ ∀ r', r' ∈ Store.articles st →
               Store.key_leb (Store.sort_key "publishedAt" r')
                             (Store.sort_key "publishedAt" r) = true.
Proof.
  rewrite getFeaturedArticle_store. cbn [fst snd].
  pose proof (merge_sort_Permutation (Store.before "publishedAt" Desc)
                (Store.articles st)) as Hperm.
  pose proof (StronglySorted_merge_sort (Store.before "publishedAt" Desc)
                (Store.articles st)) as Hsorted.
  destruct (merge_sort _ _) as [|r l] eqn:Hl.
  - refine (conj eq_refl (conj _ _)); [|done].
    split; [|done]. intros _. by apply Permutation_nil_l in Hperm.
  - refine (conj eq_refl (conj _ _)).
    + split; [done|]. intros Hnil. rewrite Hnil in Hperm.
      by apply Permutation_nil_r in Hperm.
    + intros a [= <-]. exists r. split; [rewrite <- Hperm; by left|]. split; [done|].
      intros r' Hr'. rewrite <- Hperm in Hr'.
      apply StronglySorted_inv in Hsorted as [_ Hall].
      apply elem_of_cons in Hr' as [->|Hr'].
      * destruct (key_leb_total (Store.sort_key "publishedAt" r)
                                (Store.sort_key "publishedAt" r)); done.
      * rewrite Forall_forall in Hall. specialize (Hall r' Hr').
        unfold Store.before in Hall. by apply Is_true_true.
Qed.

Lemma getFeaturedArticle_newest_witness :
  ∃ r, r ∈ Store.articles Sample.four_articles
       ∧ normalized (H := IntNumber.ops) Sample.thursday = normalized r
       ∧ ∀ r', r' ∈ Store.articles Sample.four_articles →
           Store.key_leb (Store.sort_key "publishedAt" r')
                         (Store.sort_key "publishedAt" r) = true.
Proof.
  by apply (getFeaturedArticle_newest (H := IntNumber.ops) Sample.four_articles).
Defined.

(** X7: [getRelatedArticles] answers the empty sequence for every client,
    state and argument: it maps the unbound [transformArticle] over the
    page (line 152).  The page its query fetches from the store has at most
    [limit] records, all of the given category and none with the given
    id. *)
Theorem getRelatedArticles_empty `{JsNumber} {S : Type} (db : DbClient S)
    (articleId category : jsstring) (limit : nat) (st : S) :
  (getRelatedArticles db articleId category limit st).1 = []
  ∧ ∀ rows : list DbRecord,
      let page := Store.list rows (related_query articleId category limit) in
      (length page ≤ limit)%nat
      ∧ ∀ r, r ∈ page →
          r ∈ rows ∧ get r "category" = VStr category ∧ get r "id" ≠ VStr articleId.
Proof.
  split; [by rewrite getRelatedArticles_unfold|].
  intros rows page. split; [by apply length_list|].
  intros r [Hr Hw]%elem_of_list. specialize (Hw _ eq_refl).
  cbn [Store.eval forallb] in Hw.
  apply andb_true_iff in Hw as [Hc Hid].
  apply andb_true_iff in Hid as [Hid _].
  apply text_is_true in Hc. rewrite column_same in Hc by done.
  split; [done|]. split; [done|].
  intros Heq. rewrite <- (column_same r "id") in Heq by done.
  apply text_is_true in Heq. by rewrite Heq in Hid.
Qed.

Lemma getRelatedArticles_empty_witness :
  Sample.wednesday ∈ Store.articles Sample.four_articles
  ∧ get Sample.wednesday "category" = VStr (H := IntNumber.ops) (js "ai")
  ∧ get Sample.wednesday "id" ≠ VStr (js "a1").
Proof.
  destruct (getRelatedArticles_empty (H := IntNumber.ops) Sample.client
              (js "a1") (js "ai") 3 Sample.four_articles) as [_ Hpage].
  destruct (Hpage (Store.articles Sample.four_articles)) as [_ Hrows].
  apply (Hrows Sample.wednesday). apply list_elem_of_here.
Defined.

(** ** Trimming *)

Lemma trimStart_suffix (s : jsstring) : ∃ k, trimStart s = drop k s.
Proof.
  induction s as [|c s [k IH]]; [by exists 0%nat|]. cbn.
  destruct (is_space c); [by exists (S k)|by exists 0%nat].
Qed.

Lemma trimStart_head (s : jsstring) (c : N) (r : jsstring) :
  trimStart s = c :: r → is_space c = false.
Proof.
  induction s as [|d s IH]; cbn; [done|].
  destruct (is_space d) eqn:Hd; [done|]. by intros [= <- <-].
Qed.

Lemma trimStart_fixed (s : jsstring) :
  trimStart s = s ↔ match s with [] => True | c :: _ => is_space c = false end.
Proof.
  destruct s as [|c s]; cbn; [done|]. destruct (is_space c) eqn:Hc.
  - split; [|done]. intros Heq. destruct (trimStart_suffix s) as [k Hk].
    apply (f_equal length) in Heq. rewrite Hk, length_drop in Heq. cbn in Heq. lia.
  - done.
Qed.

Lemma trimStart_idem (s : jsstring) : trimStart (trimStart s) = trimStart s.
Proof.
  apply trimStart_fixed. destruct (trimStart s) as [|c r] eqn:Hs; [done|].
  by eapply trimStart_head.
Qed.

Lemma trimStart_nil (s : jsstring) :
  trimStart s = [] ↔ Forall (λ c, is_space c = true) s.
Proof.
  induction s as [|c s IH]; cbn; [by split|].
  destruct (is_space c) eqn:Hc.
  - rewrite IH. split; [by constructor|by inversion 1].
  - split; [done|]. inversion 1; congruence.
Qed.

(** [trimStart] keeps a last unit that is not white space. *)
Lemma trimStart_snoc (s : jsstring) (c : N) :
  is_space c = false → trimStart (s ++ [c]) = trimStart s ++ [c].
Proof.
  intros Hc. induction s as [|d s IH]; cbn; [by rewrite Hc|].
  by destruct (is_space d).
Qed.

Lemma trimEnd_fixed_snoc (s : jsstring) (c : N) :
  is_space c = false → trimEnd (s ++ [c]) = s ++ [c].
Proof.
  intros Hc. unfold trimEnd. rewrite reverse_app.
  change (reverse [c] ++ reverse s) with (c :: reverse s).
  cbn [trimStart]. rewrite Hc. by rewrite reverse_cons, reverse_involutive.
Qed.

Lemma trimEnd_cases (s : jsstring) :
  trimEnd s = [] ∨ ∃ r c, trimEnd s = r ++ [c] ∧ is_space c = false.
Proof.
  unfold trimEnd. destruct (trimStart (reverse s)) as [|c r] eqn:Hs; [by left|].
  right. exists (reverse r), c. split; [by rewrite reverse_cons|].
  by eapply trimStart_head.
Qed.

(** Trimming at the end keeps a first unit that is not white space,
    unless everything goes. *)
Lemma trimEnd_head (s : jsstring) (c : N) :
  is_space c = false → ∃ r, trimEnd (c :: s) = c :: r.
Proof.
  intros Hc. unfold trimEnd. rewrite reverse_cons.
  induction (reverse s) as [|d t IH].
  - cbn [app trimStart]. rewrite Hc. by exists [].
  - cbn [app trimStart]. destruct (is_space d).
    + apply IH.
    + rewrite reverse_cons, reverse_app.
      change (reverse [c]) with [c]. cbn [app]. eauto.
Qed.

Lemma trim_cases (s : jsstring) :
  trim s = []
  ∨ ∃ c r, trim s = c :: r ∧ is_space c = false
           ∧ ∃ r' d, trim s = r' ++ [d] ∧ is_space d = false.
Proof.
  unfold trim. destruct (trimStart s) as [|c t] eqn:Hs; [by left|].
  pose proof (trimStart_head _ _ _ Hs) as Hc.
  destruct (trimEnd_head t c Hc) as [r Hr]. right. exists c, r.
  split; [done|]. split; [done|].
  destruct (trimEnd_cases (c :: t)) as [Hnil|(r' & d & Hd & Hsp)];
    [congruence|eauto].
Qed.

Lemma trim_fixed (t : jsstring) (c d : N) (r r' : jsstring) :
  t = c :: r → t = r' ++ [d] → is_space c = false → is_space d = false →
  trim t = t.
Proof.
  intros Hc Hd Hsc Hsd. unfold trim.
  replace (trimStart t) with t by (subst t; cbn; by rewrite Hsc).
  rewrite Hd. by apply trimEnd_fixed_snoc.
Qed.

Lemma trim_idem (s : jsstring) : trim (trim s) = trim s.
Proof.
  destruct (trim_cases s) as [->|(c & r & Hc & Hsc & r' & d & Hd & Hsd)]; [done|].
  by eapply trim_fixed.
Qed.

Lemma trim_nil (s : jsstring) : trim s = [] ↔ Forall (λ c, is_space c = true) s.
Proof.
  rewrite <- trimStart_nil. unfold trim. split.
  - intros Hs. destruct (trimStart s) as [|c t] eqn:Ht; [done|].
    destruct (trimEnd_head t c (trimStart_head _ _ _ Ht)) as [r Hr]. congruence.
  - by intros ->.
Qed.

(** ** URL search parameters *)

Lemma surrogate_not_space (c : N) :
  is_high_surrogate c || is_low_surrogate c = true → is_space c = false.
Proof.
  unfold is_high_surrogate, is_low_surrogate, is_space.
  rewrite orb_true_iff, !andb_true_iff, !N.leb_le. intros Hc.
  repeat (apply orb_false_iff; split);
    try (apply N.eqb_neq; lia);
    apply andb_false_iff; (left; apply N.leb_gt; lia) || (right; apply N.leb_gt; lia).
Qed.

Lemma to_usv_spaces (s : jsstring) :
  is_space <$> URLSearchParams.to_usv s = is_space <$> s.
Proof.
  remember (length s) as n eqn:Hn. revert s Hn.
  induction (lt_wf n) as [n _ IH]. intros s ->.
  destruct s as [|c r]; [done|]. cbn [URLSearchParams.to_usv].
  destruct (is_high_surrogate c) eqn:Hh.
  - pose proof (surrogate_not_space c ltac:(by rewrite Hh)) as Hc.
    destruct r as [|d r'].
    + cbn. by rewrite Hc.
    + destruct (is_low_surrogate d) eqn:Hl.
      * cbn [fmap list_fmap]. f_equal. f_equal.
        apply (IH (length r') ltac:(cbn; lia) r' eq_refl).
      * change (is_space <$> 65533 :: ?l) with (false :: (is_space <$> l)).
        rewrite (IH (length (d :: r')) ltac:(cbn; lia) (d :: r') eq_refl).
        cbn [fmap list_fmap]. by rewrite Hc.
  - destruct (is_low_surrogate c) eqn:Hl.
    + pose proof (surrogate_not_space c ltac:(by rewrite Hl, orb_true_r)) as Hc.
      change (is_space <$> 65533 :: ?l) with (false :: (is_space <$> l)).
      rewrite (IH (length r) ltac:(cbn; lia) r eq_refl).
      cbn [fmap list_fmap]. by rewrite Hc.
    + cbn [fmap list_fmap]. f_equal.
      apply (IH (length r) ltac:(cbn; lia) r eq_refl).
Qed.

Lemma to_usv_nil (s : jsstring) : URLSearchParams.to_usv s = [] ↔ s = [].
Proof.
  split; [|by intros ->]. intros Hs.
  pose proof (to_usv_spaces s) as Hsp. rewrite Hs in Hsp.
  by destruct s.
Qed.

(** Converting a trimmed text leaves it trimmed. *)
Lemma trim_to_usv (s : jsstring) :
  trim (URLSearchParams.to_usv (trim s)) = URLSearchParams.to_usv (trim s).
Proof.
  pose proof (to_usv_spaces (trim s)) as Hsp.
  destruct (trim_cases s) as [->|(c & r & Hc & Hsc & r' & d & Hd & Hsd)]; [done|].
  destruct (URLSearchParams.to_usv (trim s)) as [|c' u] eqn:Hu.
  { rewrite Hc in Hsp. done. }
  assert (is_space c' = false) as Hc'.
  { rewrite Hc in Hsp. cbn in Hsp. congruence. }
  rewrite Hd, fmap_app in Hsp.
  apply fmap_app_inv in Hsp as (u1 & u2 & _ & Hu2 & Hsplit).
  destruct u2 as [|d' [|? ?]]; try done.
  cbn in Hu2. injection Hu2 as Hd'.
  eapply trim_fixed; [done|exact Hsplit|done|congruence].
Qed.

Section Params.
Implicit Types (name value : jsstring) (params : URLSearchParams.t).

Lemma named_other name other k v :
  name ≠ other → URLSearchParams.named name (k, v) = true →
  URLSearchParams.named other (k, v) = false.
Proof.
  intros Hne Hk. apply bool_decide_eq_true_1 in Hk. cbn in Hk. subst k.
  by apply bool_decide_eq_false_2.
Qed.

Lemma find_named_filter name other params :
  name ≠ other →
  List.find (URLSearchParams.named other)
    (List.filter (λ e, negb (URLSearchParams.named name e)) params)
  = List.find (URLSearchParams.named other) params.
Proof.
  intros Hne. induction params as [|[k v] params IH]; [done|].
  cbn [List.filter List.find].
  destruct (URLSearchParams.named name (k, v)) eqn:Hk; cbn [negb].
  - by rewrite (named_other name other k v).
  - cbn [List.find]. by rewrite IH.
Qed.

Lemma find_named_filter_same name params :
  List.find (URLSearchParams.named name)
    (List.filter (λ e, negb (URLSearchParams.named name e)) params) = None.
Proof.
  induction params as [|[k v] params IH]; [done|]. cbn.
  destruct (URLSearchParams.named name (k, v)) eqn:Hk; cbn; [done|]. by rewrite Hk.
Qed.

Lemma find_named_set_entry name value params :
  List.find (URLSearchParams.named name) (URLSearchParams.set_entry name value params)
  = Some (name, value).
Proof.
  assert (Hself : URLSearchParams.named name (name, value) = true)
    by by apply bool_decide_eq_true_2.
  induction params as [|[k v] params IH]; cbn; [by rewrite Hself|].
  destruct (URLSearchParams.named name (k, v)) eqn:Hk; cbn.
  - by rewrite Hself.
  - by rewrite Hk.
Qed.

Lemma find_named_set_entry_other name other value params :
  name ≠ other →
  List.find (URLSearchParams.named other) (URLSearchParams.set_entry name value params)
  = List.find (URLSearchParams.named other) params.
Proof.
  intros Hne.
  assert (Hself : URLSearchParams.named other (name, value) = false)
    by by apply bool_decide_eq_false_2.
  induction params as [|[k v] params IH]; cbn; [by rewrite Hself|].
  destruct (URLSearchParams.named name (k, v)) eqn:Hk; cbn.
  - rewrite Hself, (named_other name other k v) by done.
    by apply find_named_filter.
  - destruct (URLSearchParams.named other (k, v)); [done|apply IH].
Qed.

Lemma get_set name value params :
  URLSearchParams.get name (URLSearchParams.set name value params)
  = Some (URLSearchParams.to_usv value).
Proof.
  unfold URLSearchParams.get, URLSearchParams.set.
  by rewrite find_named_set_entry.
Qed.

Lemma get_set_other name other value params :
  URLSearchParams.to_usv name ≠ URLSearchParams.to_usv other →
  URLSearchParams.get other (URLSearchParams.set name value params)
  = URLSearchParams.get other params.
Proof.
  intros Hne. unfold URLSearchParams.get, URLSearchParams.set.
  by rewrite find_named_set_entry_other.
Qed.

Lemma get_delete name params :
  URLSearchParams.get name (URLSearchParams.delete name params) = None.
Proof.
  unfold URLSearchParams.get, URLSearchParams.delete.
  by rewrite find_named_filter_same.
Qed.

Lemma get_delete_other name other params :
  URLSearchParams.to_usv name ≠ URLSearchParams.to_usv other →
  URLSearchParams.get other (URLSearchParams.delete name params)
  = URLSearchParams.get other params.
Proof.
  intros Hne. unfold URLSearchParams.get, URLSearchParams.delete.
  by rewrite find_named_filter.
Qed.
End Params.

(** ** The home page *)

Lemma text_or_nil_r (a : jsstring) : text_or a [] = a.
Proof. by destruct a. Qed.

(** X8: the three filter handlers of the home page.  In the parameters each
    hands to [setSearchParams], reading its own parameter back with the
    default the page uses gives the text that was passed (trimmed for the
    search; the default when the text is empty), with lone surrogates
    replaced; every other parameter reads as before. *)
Theorem HomePage_handlers_read_back (text : jsstring) (searchParams : URLSearchParams.t) :
  HomePage.param_or "search" EmptyString (HomePage.handleSearch text searchParams)
  = URLSearchParams.to_usv (trim text)
  ∧ HomePage.param_or "category" "all" (HomePage.handleCategoryChange text searchParams)
    = text_or (URLSearchParams.to_usv text) (js "all")
  ∧ HomePage.param_or "type" "all" (HomePage.handleTypeFilter text searchParams)
    = text_or (URLSearchParams.to_usv text) (js "all")
  ∧ ∀ name : jsstring,
      (URLSearchParams.to_usv name ≠ js "search" →
       URLSearchParams.get name (HomePage.handleSearch text searchParams)
       = URLSearchParams.get name searchParams)
      ∧ (URLSearchParams.to_usv name ≠ js "category" →
         URLSearchParams.get name (HomePage.handleCategoryChange text searchParams)
         = URLSearchParams.get name searchParams)
      ∧ (URLSearchParams.to_usv name ≠ js "type" →
         URLSearchParams.get name (HomePage.handleTypeFilter text searchParams)
         = URLSearchParams.get name searchParams).
Proof.
  refine (conj _ (conj _ (conj _ _))).
  - unfold HomePage.param_or, HomePage.handleSearch.
    destruct (trim text) as [|c t] eqn:Ht.
    + by rewrite get_delete.
    + by rewrite get_set, text_or_nil_r.
  - unfold HomePage.param_or, HomePage.handleCategoryChange.
    case_bool_decide as Hall; cbn [negb].
    + subst text. by rewrite get_delete.
    + by rewrite get_set.
  - unfold HomePage.param_or, HomePage.handleTypeFilter.
    case_bool_decide as Hall; cbn [negb].
    + subst text. by rewrite get_delete.
    + by rewrite get_set.
  - intros name. refine (conj _ (conj _ _)); intros Hname.
    + unfold HomePage.handleSearch. destruct (trim text);
        [apply get_delete_other|apply get_set_other]; by intros Heq; apply Hname.
    + unfold HomePage.handleCategoryChange. case_bool_decide; cbn [negb];
        [apply get_delete_other|apply get_set_other]; by intros Heq; apply Hname.
    + unfold HomePage.handleTypeFilter. case_bool_decide; cbn [negb];
        [apply get_delete_other|apply get_set_other]; by intros Heq; apply Hname.
Qed.

Lemma HomePage_handlers_read_back_witness :
  let searchParams := PageSample.searchParams in
  URLSearchParams.get (js "category") (HomePage.handleSearch (js " rocq ") searchParams)
  = URLSearchParams.get (js "category") searchParams.
Proof.
  intros searchParams.
  by apply (HomePage_handlers_read_back (js " rocq ") searchParams).
Defined.

(** X9: after [handleSearch], the filters the page derives from the URL
    search for the trimmed query, or carry no search when the query is
    blank; the category and kind filters are what they were. *)
Theorem HomePage_search_filters (query : jsstring) (searchParams : URLSearchParams.t) :
  HomePage.filters_of_params (HomePage.handleSearch query searchParams)
  = {| ArticleFilters.category :=
         ArticleFilters.category (HomePage.filters_of_params searchParams);
       ArticleFilters.search :=
         match trim query with
         | _ :: _ => Some (URLSearchParams.to_usv (trim query))
         | [] => None
         end;
       ArticleFilters.isAggregated :=
         ArticleFilters.isAggregated (HomePage.filters_of_params searchParams);
       ArticleFilters.limit := None;
       ArticleFilters.offset := None |}.
Proof.
  assert (Hget : ∀ name, URLSearchParams.to_usv name ≠ js "search" →
            URLSearchParams.get name (HomePage.handleSearch query searchParams)
            = URLSearchParams.get name searchParams).
  { intros name Hname. unfold HomePage.handleSearch. destruct (trim query);
      [apply get_delete_other|apply get_set_other]; by intros Heq; apply Hname. }
  assert (Hsearch :
    HomePage.param_or "search" EmptyString (HomePage.handleSearch query searchParams)
    = URLSearchParams.to_usv (trim query)).
  { unfold HomePage.param_or, HomePage.handleSearch.
    destruct (trim query) as [|c t] eqn:Ht.
    - by rewrite get_delete.
    - by rewrite get_set, text_or_nil_r. }
  unfold HomePage.filters_of_params, HomePage.loadArticles_filters.
  cbn [ArticleFilters.category ArticleFilters.isAggregated].
  rewrite Hsearch, trim_to_usv. unfold HomePage.param_or.
  rewrite !Hget by (intros Hx; vm_compute in Hx; discriminate).
  f_equal. destruct (trim query) as [|c t] eqn:Ht; [done|].
  destruct (URLSearchParams.to_usv (c :: t)) eqn:Hu; [|done].
  by apply (proj1 (to_usv_nil _)) in Hu.
Qed.

(** X10: [loadArticles] puts the empty sequence in the page state for every
    client (it displays what [getArticles] returns).  The page its query
    fetches from the store has at most 20 records; they have the selected
    category unless it is ["all"] or empty, hold the trimmed search text in
    title, excerpt, author or tags unless the search is blank, and have the
    flag ["1"] for the kind ["aggregated"] and ["0"] for ["original"]. *)
Theorem HomePage_loadArticles_page `{JsNumber} {S : Type} (db : DbClient S)
    (category search type : jsstring) (st : S) :
  (HomePage.loadArticles db category search type st).1 = []
  ∧ ∀ rows : list DbRecord,
      let page :=
        Store.list rows
          (getArticles_query (HomePage.loadArticles_filters category search type)) in
      (length page ≤ 20)%nat
      ∧ ∀ r, r ∈ page →
          (category ≠ js "all" → category ≠ [] → get r "category" = VStr category)
          ∧ (trim search ≠ [] →
             ∃ field text,
               field ∈ ["title"; "excerpt"; "author"; "tags"]%string
               ∧ Store.column r field = VStr text
               ∧ Store.contains text (trim search) = true)
          ∧ (type = js "aggregated" → Store.column r "isAggregated" = VStr (js "1"))
          ∧ (type = js "original" → Store.column r "isAggregated" = VStr (js "0")).
Proof.
  split; [unfold HomePage.loadArticles; by rewrite getArticles_unfold|].
  intros rows page. split; [by apply length_list|].
  intros r Hr. pose proof Hr as [_ Hw]%elem_of_list. specialize (Hw _ eq_refl).
  refine (conj _ (conj _ (conj _ _))).
  - intros Hall Hne. rewrite <- (column_same r "category") by done.
    apply text_is_true.
    apply (eval_conditions _ r (WEq "category" category) Hw).
    cbn [HomePage.loadArticles_filters ArticleFilters.category].
    rewrite bool_decide_eq_false_2 by done. cbn [negb].
    rewrite category_conditions_elem by done. set_solver.
  - intros Hs.
    apply (getArticles_page_search
             (HomePage.loadArticles_filters category search type)
             rows (trim search) r); [|done|done].
    cbn [HomePage.loadArticles_filters ArticleFilters.search].
    by destruct (trim search).
  - intros ->. apply text_is_true.
    apply (eval_conditions _ r (WEq "isAggregated" (js "1")) Hw).
    cbn [HomePage.loadArticles_filters ArticleFilters.isAggregated].
    cbn [aggregated_conditions bool_decide]. set_solver.
  - intros ->. apply text_is_true.
    apply (eval_conditions _ r (WEq "isAggregated" (js "0")) Hw).
    cbn [HomePage.loadArticles_filters ArticleFilters.isAggregated].
    set_solver.
Qed.

Lemma HomePage_loadArticles_page_witness :
  get Sample.wednesday "category" = VStr (H := IntNumber.ops) (js "ai")
  ∧ Store.column Sample.wednesday "isAggregated" = VStr (js "0").
Proof.
  destruct (HomePage_loadArticles_page (H := IntNumber.ops) Sample.client
              (js "ai") (js "  ") (js "original") Sample.four_articles)
    as [_ Hpage].
  destruct (Hpage (Store.articles Sample.four_articles)) as [_ Hrows].
  destruct (Hrows Sample.wednesday) as (Hc & _ & _ & Ho).
  - apply list_elem_of_here.
  - split; [by apply Hc|by apply Ho].
Defined.

(** ** The editor: tags *)

Lemma with_tags_same (formData : CreatePost.FormData) :
  CreatePost.with_tags (CreatePost.tags formData) formData = formData.
Proof. by destruct formData. Qed.

Lemma filter_other_fresh (tag : jsstring) (tags : list jsstring) :
  tag ∉ tags →
  List.filter (λ t, negb (bool_decide (t = tag))) (tags ++ [tag]) = tags.
Proof.
  induction tags as [|t tags IH]; intros Hfresh; cbn.
  - by rewrite bool_decide_eq_true_2.
  - apply not_elem_of_cons in Hfresh as [Hne Hfresh].
    rewrite bool_decide_eq_false_2 by done. cbn. by rewrite IH.
Qed.

(** X11: [addTag] keeps the tags distinct.  The tags afterwards are the old
    ones and, when it is not blank, the trimmed input; a tag that was added
    is non-empty and trimmed, and the input box is then cleared; no other
    field of the form changes; a second call right after changes nothing. *)
Theorem addTag_keeps_tags_distinct (formData : CreatePost.FormData)
    (newTag : jsstring) :
  let '(after, input) := CreatePost.addTag formData newTag in
  (NoDup (CreatePost.tags formData) → NoDup (CreatePost.tags after))
  ∧ (∀ tag, tag ∈ CreatePost.tags after
            ↔ tag ∈ CreatePost.tags formData
              ∨ (tag = trim newTag ∧ trim newTag ≠ []))
  ∧ (∀ tag, tag ∈ CreatePost.tags after → tag ∉ CreatePost.tags formData →
            tag ≠ [] ∧ trim tag = tag ∧ input = [])
  ∧ CreatePost.with_tags (CreatePost.tags formData) after = formData
  ∧ CreatePost.addTag after input = (after, input).
Proof.
  unfold CreatePost.addTag.
  destruct (trim newTag) as [|c t] eqn:Htrim.
  { refine (conj _ (conj _ (conj _ (conj _ _)))); try done.
    - intros tag. split; [by left|]. by intros [?|[_ ?]].
    - apply with_tags_same.
    - by rewrite Htrim. }
  case_bool_decide as Hin; cbn [negb].
  - refine (conj _ (conj _ (conj _ (conj _ _)))); try done.
    + intros tag. split; [by left|]. by intros [?|[-> _]].
    + apply with_tags_same.
    + rewrite Htrim. by rewrite bool_decide_eq_true_2.
  - refine (conj _ (conj _ (conj _ (conj _ _)))).
    + intros Hnd. cbn. apply NoDup_app. split; [done|]. split.
      * intros x Hx Hx'. apply list_elem_of_singleton in Hx'. by subst x.
      * apply NoDup_singleton.
    + intros tag. cbn. rewrite elem_of_app, list_elem_of_singleton.
      split; [intros [?| ->]; [by left|by right]|intros [?|[-> _]]; auto].
    + intros tag Htag Hold. cbn in Htag.
      apply elem_of_app in Htag as [?|Htag]; [done|].
      apply list_elem_of_singleton in Htag. subst tag.
      split; [done|]. split; [|done]. rewrite <- Htrim. apply trim_idem.
    + by destruct formData.
    + done.
Qed.

Lemma addTag_keeps_tags_distinct_witness :
  let formData :=
    {| CreatePost.title := []; CreatePost.excerpt := []; CreatePost.content := [];
       CreatePost.author := []; CreatePost.category := [];
       CreatePost.featuredImage := []; CreatePost.isAggregated := false;
       CreatePost.sourceName := []; CreatePost.sourceUrl := [];
       CreatePost.tags := [js "ai"]; CreatePost.readTime := [] |} in
  NoDup (CreatePost.tags (CreatePost.addTag formData (js " rocq ")).1).
Proof.
  intros formData.
  apply (addTag_keeps_tags_distinct formData (js " rocq ")).
  apply NoDup_singleton.
Defined.

Lemma NoDup_filter_bool {A} (f : A → bool) (l : list A) :
  NoDup l → NoDup (List.filter f l).
Proof.
  induction 1 as [|x l Hx Hnd IH]; cbn; [constructor|].
  destruct (f x); [|done]. constructor; [|done].
  rewrite elem_of_filter_bool. by intros [? _].
Qed.

(** X12: [removeTag] removes every occurrence of the tag and nothing else,
    keeps distinct tags distinct and the other fields as they are, does
    nothing when the tag is absent, and undoes an [addTag] of a tag that was
    not there. *)
Theorem removeTag_removes (tagToRemove : jsstring) (formData : CreatePost.FormData) :
  let after := CreatePost.removeTag tagToRemove formData in
  (tagToRemove ∉ CreatePost.tags after)
  ∧ (∀ tag, tag ∈ CreatePost.tags after
            ↔ tag ∈ CreatePost.tags formData ∧ tag ≠ tagToRemove)
  ∧ (NoDup (CreatePost.tags formData) → NoDup (CreatePost.tags after))
  ∧ CreatePost.with_tags (CreatePost.tags formData) after = formData
  ∧ (tagToRemove ∉ CreatePost.tags formData → after = formData)
  ∧ ∀ newTag,
      trim newTag = tagToRemove → tagToRemove ∉ CreatePost.tags formData →
      CreatePost.removeTag tagToRemove (CreatePost.addTag formData newTag).1
      = formData.
Proof.
  cbv zeta.
  assert (Hmem : ∀ tag, tag ∈ CreatePost.tags (CreatePost.removeTag tagToRemove formData)
                        ↔ tag ∈ CreatePost.tags formData ∧ tag ≠ tagToRemove).
  { intros tag. cbn. rewrite elem_of_filter_bool, negb_true_iff.
    by rewrite bool_decide_eq_false. }
  assert (Hfresh : ∀ tags : list jsstring, tagToRemove ∉ tags →
            List.filter (λ t, negb (bool_decide (t = tagToRemove))) tags = tags).
  { induction tags as [|t tags IH]; [done|]. intros [Hne Hrest]%not_elem_of_cons.
    cbn. rewrite bool_decide_eq_false_2 by done. cbn. by rewrite IH. }
  refine (conj _ (conj Hmem (conj _ (conj _ (conj _ _))))).
  - rewrite Hmem. intros [_ Hne]. by apply Hne.
  - intros Hnd. by apply NoDup_filter_bool.
  - by destruct formData.
  - intros Hnot. unfold CreatePost.removeTag. rewrite Hfresh by done.
    apply with_tags_same.
  - intros newTag Htrim Hnot. unfold CreatePost.addTag. rewrite Htrim.
    destruct tagToRemove as [|c t].
    + unfold CreatePost.removeTag. rewrite Hfresh by done. apply with_tags_same.
    + rewrite bool_decide_eq_false_2 by done. cbn [negb fst].
      unfold CreatePost.removeTag. cbn [CreatePost.tags CreatePost.with_tags].
      rewrite filter_other_fresh by done. by destruct formData.
Qed.

Lemma removeTag_removes_witness :
  let formData :=
    {| CreatePost.title := []; CreatePost.excerpt := []; CreatePost.content := [];
       CreatePost.author := []; CreatePost.category := [];
       CreatePost.featuredImage := []; CreatePost.isAggregated := false;
       CreatePost.sourceName := []; CreatePost.sourceUrl := [];
       CreatePost.tags := [js "ai"]; CreatePost.readTime := [] |} in
  CreatePost.removeTag (js "rocq") (CreatePost.addTag formData (js " rocq ")).1
  = formData.
Proof.
  intros formData.
  apply (removeTag_removes (js "rocq") formData); [reflexivity|].
  by intros ?%list_elem_of_singleton.
Defined.

(** ** The editor: read time *)

Lemma length_strip_tags_from (inside : bool) (s : jsstring) :
  (length (strip_tags_from inside s) ≤ length s)%nat.
Proof.
  revert inside. induction s as [|c s IH]; intros inside; cbn; [lia|].
  destruct inside.
  - destruct (c =? 62); [specialize (IH false)|specialize (IH true)]; lia.
  - destruct ((c =? 60) && existsb (N.eqb 62) s);
      [specialize (IH true)|specialize (IH false); cbn]; lia.
Qed.

Lemma length_split_spaces_from (piece : jsstring) (in_run : bool) (s : jsstring) :
  (1 ≤ length (split_spaces_from piece in_run s) ≤ length s + 1)%nat.
Proof.
  revert piece in_run. induction s as [|c s IH]; intros piece in_run; cbn; [lia|].
  destruct (is_space c).
  - destruct in_run; [specialize (IH piece true)|specialize (IH [] true); cbn]; lia.
  - specialize (IH (c :: piece) false). lia.
Qed.

Lemma strip_tags_plain (s : jsstring) :
  Forall (λ c, c ≠ 60) s → strip_tags s = s.
Proof.
  unfold strip_tags. induction 1 as [|c s Hc _ IH]; cbn; [done|].
  rewrite (proj2 (N.eqb_neq c 60)) by done. cbn. by rewrite IH.
Qed.

Lemma strip_tags_inside (name rest : jsstring) :
  Forall (λ c, c ≠ 62) name →
  strip_tags_from true (name ++ 62 :: rest) = strip_tags_from false rest.
Proof.
  induction 1 as [|c name Hc _ IH]; cbn; [done|].
  by rewrite (proj2 (N.eqb_neq c 62)).
Qed.

Lemma strip_tags_leading_tag (name rest : jsstring) :
  Forall (λ c, c ≠ 62) name →
  strip_tags (60 :: name ++ 62 :: rest) = strip_tags rest.
Proof.
  intros Hname. unfold strip_tags. cbn [strip_tags_from].
  replace (existsb (N.eqb 62) (name ++ 62 :: rest)) with true.
  - cbn. by apply strip_tags_inside.
  - symmetry. apply existsb_exists. exists 62. split; [|done].
    apply in_or_app. right. by left.
Qed.

(** X13: [estimateReadTime] answers ["<m> min read"] with [m] at least 1,
    also for empty content, and at most one more than a 200th of the
    content's length; a tag in front of the content does not change the
    estimate; without any [<] nothing is stripped. *)
Theorem estimateReadTime_at_least_a_minute (content : jsstring) :
  (∃ minutes : nat,
     estimateReadTime content = decimal minutes ++ js " min read"
     ∧ (1 ≤ minutes ≤ length content / 200 + 1)%nat)
  ∧ (∀ name rest, Forall (λ c, c ≠ 62) name →
       estimateReadTime (60 :: name ++ 62 :: rest) = estimateReadTime rest)
  ∧ (Forall (λ c, c ≠ 60) content →
     estimateReadTime content
     = decimal ((length (split_spaces content) + 199) / 200) ++ js " min read").
Proof.
  refine (conj _ (conj _ _)).
  - eexists. split; [reflexivity|].
    pose proof (length_split_spaces_from [] false (strip_tags content)) as Hw.
    pose proof (length_strip_tags_from false content) as Hs.
    fold (strip_tags content) in Hs. fold (split_spaces (strip_tags content)) in Hw.
    change (200 - 1)%nat with 199%nat.
    split.
    + apply (Nat.div_le_lower_bound _ 200 1); lia.
    + replace (length content / 200 + 1)%nat with ((length content + 1 * 200) / 200)%nat
        by (rewrite Nat.div_add; lia).
      apply Nat.Div0.div_le_mono. lia.
  - intros name rest Hname. unfold estimateReadTime.
    by rewrite strip_tags_leading_tag.
  - intros Hplain. unfold estimateReadTime. by rewrite strip_tags_plain.
Qed.

Lemma estimateReadTime_at_least_a_minute_witness :
  estimateReadTime (js "<p>" ++ js "Hello world") = estimateReadTime (js "Hello world").
Proof.
  apply (estimateReadTime_at_least_a_minute []) with (name := js "p").
  repeat constructor; discriminate.
Defined.

(** ** The editor: saving *)

Lemma trim_nonempty (s : jsstring) :
  trim s ≠ [] ↔ Exists (λ c, is_space c = false) s.
Proof.
  rewrite trim_nil. induction s as [|c s IH].
  - split; [intros Hn; by destruct Hn|by inversion 1].
  - destruct (is_space c) eqn:Hc.
    + split.
      * intros Hn. right. apply IH. intros Hs. apply Hn. by constructor.
      * intros [Hx|Hx]%Exists_cons; [congruence|].
        intros Hall. apply Forall_cons in Hall as [_ Hall]. by apply IH in Hx.
    + split; [by left|]. intros _ Hall. apply Forall_cons in Hall as [? _]. congruence.
Qed.

Lemma estimateReadTime_nonempty (content : jsstring) : estimateReadTime content ≠ [].
Proof.
  unfold estimateReadTime. intros Heq. apply app_eq_nil in Heq as [_ Heq]. done.
Qed.

Lemma text_or_nonempty (a b : jsstring) : b ≠ [] → text_or a b ≠ [].
Proof. by destruct a. Qed.

Lemma filled_nonempty `{JsNumber} (s : jsstring) (fallback : JsVal) :
  s ≠ [] → filled (Some s) fallback = VStr s.
Proof. by destruct s. Qed.

Lemma filled_text `{JsNumber} (s : jsstring) : filled (Some s) (VStr []) = VStr s.
Proof. by destruct s. Qed.

Lemma written_nonempty `{JsNumber} (s : jsstring) : s ≠ [] → written (Some s) = Some (VStr s).
Proof. by destruct s. Qed.

Lemma validateForm_valid (formData : CreatePost.FormData) :
  CreatePost.validateForm formData = None
  ↔ trim (CreatePost.title formData) ≠ []
    ∧ trim (CreatePost.excerpt formData) ≠ []
    ∧ trim (CreatePost.content formData) ≠ []
    ∧ trim (CreatePost.author formData) ≠ []
    ∧ CreatePost.category formData ≠ [].
Proof.
  unfold CreatePost.validateForm.
  destruct (trim (CreatePost.title formData));
    [split; [done|by intros (? & _)]|].
  destruct (trim (CreatePost.excerpt formData));
    [split; [done|by intros (_ & ? & _)]|].
  destruct (trim (CreatePost.content formData));
    [split; [done|by intros (_ & _ & ? & _)]|].
  destruct (trim (CreatePost.author formData));
    [split; [done|by intros (_ & _ & _ & ? & _)]|].
  destruct (CreatePost.category formData);
    [split; [done|by intros (_ & _ & _ & _ & ?)]|done].
Qed.

(** X14: [validateForm] accepts a form exactly when title, excerpt, content
    and author each hold a unit that is not white space and a category is
    selected; [handleSave] on a rejected form raises an alert and leaves the
    remote state untouched, for every client. *)
Theorem validateForm_required_fields `{JsNumber} {S : Type} (db : DbClient S)
    (env : Env) (today : jsstring) (id : option jsstring)
    (formData : CreatePost.FormData) (categories : list CreatePost.CategoryOption)
    (st : S) :
  (CreatePost.validateForm formData = None
   ↔ Exists (λ c, is_space c = false) (CreatePost.title formData)
     ∧ Exists (λ c, is_space c = false) (CreatePost.excerpt formData)
     ∧ Exists (λ c, is_space c = false) (CreatePost.content formData)
     ∧ Exists (λ c, is_space c = false) (CreatePost.author formData)
     ∧ CreatePost.category formData ≠ [])
  ∧ (CreatePost.validateForm formData ≠ None →
     ∃ message,
       CreatePost.handleSave db env today id formData categories st
       = (CreatePost.Alerted message, st)).
Proof.
  split.
  - by rewrite validateForm_valid, !trim_nonempty.
  - unfold CreatePost.handleSave.
    destruct (CreatePost.validateForm formData) as [message|]; [eauto|done].
Qed.

Section Saving.
Context `{JsNumber}.

Lemma create_record_gets (env : Env) (articleData : PartialArticle.t) :
  let record := create_record env articleData in
  get record "title" = filled (PartialArticle.title articleData) (VStr [])
  ∧ get record "excerpt" = filled (PartialArticle.excerpt articleData) (VStr [])
  ∧ get record "content" = filled (PartialArticle.content articleData) (VStr [])
  ∧ get record "author" = filled (PartialArticle.author articleData) (VStr [])
  ∧ get record "category" = filled (PartialArticle.category articleData) (VStr [])
  ∧ get record "categoryName"
    = filled (PartialArticle.categoryName articleData) (VStr [])
  ∧ get record "categoryColor"
    = filled (PartialArticle.categoryColor articleData) (VStr (js "#2563eb"))
  ∧ get record "readTime"
    = filled (PartialArticle.readTime articleData) (VStr (js "5 min read"))
  ∧ get record "userId" = filled (PartialArticle.userId articleData) (VStr (js "user"))
  ∧ get record "sourceName" = filled (PartialArticle.sourceName articleData) VNull
  ∧ get record "sourceUrl" = filled (PartialArticle.sourceUrl articleData) VNull.
Proof.
  cbv zeta. repeat apply conj.
  all: match goal with
       | |- get _ ?k = filled ?o ?d =>
         change (get (create_record env articleData) k) with (str_or o d);
         apply str_or_filled
       end.
Qed.

Lemma selected_name_nonempty (formData : CreatePost.FormData)
    (selected : option CreatePost.CategoryOption) :
  CreatePost.category formData ≠ [] →
  match selected with
  | Some cat => text_or (CreatePost.option_name cat) (CreatePost.category formData)
  | None => CreatePost.category formData
  end ≠ [].
Proof. intros Hc. destruct selected; [by apply text_or_nonempty|done]. Qed.

Lemma selected_color_nonempty (selected : option CreatePost.CategoryOption) :
  match selected with
  | Some cat => text_or (CreatePost.option_color cat) (js "#2563eb")
  | None => js "#2563eb"
  end ≠ [].
Proof. destruct selected; [by apply text_or_nonempty|done]. Qed.
End Saving.

Lemma validateForm_required_fields_witness :
  ∃ message,
    CreatePost.handleSave (offline (H := IntNumber.ops)) Sample.env PageSample.today
      None PageSample.blank PageSample.categories ()
    = (CreatePost.Alerted message, ()).
Proof.
  by apply (validateForm_required_fields (H := IntNumber.ops) offline Sample.env
              PageSample.today None PageSample.blank PageSample.categories ()).
Defined.

(** X15: saving a valid new article against the store navigates to the
    dashboard and appends one record.  Its title, excerpt, content and
    author are the trimmed form texts, never the service's empty default;
    category name and colour are non-empty; the read time is the form's or
    the estimate, never empty; the owner is ["admin"]; for an original
    article the flag is ["0"] and both source fields are [null]. *)
Theorem handleSave_creates `{JsNumber} (env : Env) (today : jsstring)
    (formData : CreatePost.FormData) (categories : list CreatePost.CategoryOption)
    (st : Store.t) :
  CreatePost.validateForm formData = None →
  let record :=
    create_record env (CreatePost.articleData_of formData categories today) in
  CreatePost.handleSave Store.client env today None formData categories st
  = (CreatePost.Navigated "/admin", Store.create record st)
  ∧ get record "title" = VStr (trim (CreatePost.title formData))
  ∧ get record "excerpt" = VStr (trim (CreatePost.excerpt formData))
  ∧ get record "content" = VStr (trim (CreatePost.content formData))
  ∧ get record "author" = VStr (trim (CreatePost.author formData))
  ∧ get record "category" = VStr (CreatePost.category formData)
  ∧ (∃ name, name ≠ [] ∧ get record "categoryName" = VStr name)
  ∧ (∃ color, color ≠ [] ∧ get record "categoryColor" = VStr color)
  ∧ get record "readTime"
    = VStr (text_or (CreatePost.readTime formData)
                    (estimateReadTime (CreatePost.content formData)))
  ∧ get record "readTime" ≠ VStr []
  ∧ get record "userId" = VStr (js "admin")
  ∧ (CreatePost.isAggregated formData = false →
     get record "isAggregated" = VStr (js "0")
     ∧ get record "sourceName" = VNull ∧ get record "sourceUrl" = VNull).
Proof.
  intros Hvalid record.
  pose proof (proj1 (validateForm_valid formData) Hvalid)
    as (Htitle & Hexcerpt & Hcontent & Hauthor & Hcategory).
  destruct (create_record_gets env
              (CreatePost.articleData_of formData categories today))
    as (Gt & Ge & Gc & Ga & Gcat & Gn & Gcol & Gr & Gu & Gsn & Gsu).
  fold record in Gt, Ge, Gc, Ga, Gcat, Gn, Gcol, Gr, Gu, Gsn, Gsu.
  cbn [CreatePost.articleData_of PartialArticle.title PartialArticle.excerpt
       PartialArticle.content PartialArticle.author PartialArticle.category
       PartialArticle.categoryName PartialArticle.categoryColor
       PartialArticle.readTime PartialArticle.userId PartialArticle.sourceName
       PartialArticle.sourceUrl] in Gt, Ge, Gc, Ga, Gcat, Gn, Gcol, Gr, Gu, Gsn, Gsu.
  assert (Hread : text_or (CreatePost.readTime formData)
                          (estimateReadTime (CreatePost.content formData)) ≠ [])
    by apply text_or_nonempty, estimateReadTime_nonempty.
  refine (conj _ (conj _ (conj _ (conj _ (conj _ (conj _ (conj _ (conj _ (conj _
            (conj _ (conj _ _))))))))))).
  - unfold CreatePost.handleSave. by rewrite Hvalid.
  - by rewrite Gt, filled_nonempty.
  - by rewrite Ge, filled_nonempty.
  - by rewrite Gc, filled_nonempty.
  - by rewrite Ga, filled_nonempty.
  - by rewrite Gcat, filled_nonempty.
  - eexists. split; [|rewrite Gn; apply filled_nonempty];
      by apply selected_name_nonempty.
  - eexists. split; [|rewrite Gcol; apply filled_nonempty];
      apply selected_color_nonempty.
  - by rewrite Gr, filled_nonempty.
  - rewrite Gr, filled_nonempty by done. congruence.
  - by rewrite Gu.
  - intros Hagg. rewrite Hagg in Gsn, Gsu. split; [|done].
    unfold record, CreatePost.articleData_of. by rewrite Hagg.
Qed.

Lemma handleSave_creates_witness :
  get (create_record (H := IntNumber.ops) Sample.env
         (CreatePost.articleData_of PageSample.draft PageSample.categories
            PageSample.today)) "title"
  = VStr (js "Proofs at work").
Proof.
  by apply (handleSave_creates (H := IntNumber.ops) Sample.env PageSample.today
              PageSample.draft PageSample.categories Sample.four_articles).
Defined.

(** X16: saving a valid edit against the store navigates to the dashboard
    when a record has the id and alerts otherwise.  The update writes the
    trimmed texts and the category, never the owner; it writes today's date
    as [publishedAt]; it does not write an empty image; and when the
    article is marked original it writes the flag ["0"] but leaves the
    stored source name and URL as they were. *)
Theorem handleSave_updates `{JsNumber} (env : Env) (today id : jsstring)
    (formData : CreatePost.FormData) (categories : list CreatePost.CategoryOption)
    (st : Store.t) :
  CreatePost.validateForm formData = None → id ≠ [] →
  let updateData :=
    update_record (iso_updated env)
      (CreatePost.articleData_of formData categories today) in
  CreatePost.handleSave Store.client env today (Some id) formData categories st
  = (match List.filter (Store.has_id id) (Store.articles st) with
     | [] => CreatePost.Alerted "Failed to save article. Please try again."
     | _ :: _ => CreatePost.Navigated "/admin"
     end,
     Store.update id updateData st)
  ∧ updateData !! "title" = Some (VStr (trim (CreatePost.title formData)))
  ∧ updateData !! "excerpt" = Some (VStr (trim (CreatePost.excerpt formData)))
  ∧ updateData !! "content" = Some (VStr (trim (CreatePost.content formData)))
  ∧ updateData !! "author" = Some (VStr (trim (CreatePost.author formData)))
  ∧ updateData !! "category" = Some (VStr (CreatePost.category formData))
  ∧ updateData !! "userId" = None
  ∧ (split_head 84 today ≠ [] →
     updateData !! "publishedAt" = Some (VStr (split_head 84 today)))
  ∧ (CreatePost.featuredImage formData = [] → updateData !! "featuredImage" = None)
  ∧ (CreatePost.isAggregated formData = false →
     updateData !! "isAggregated" = Some (VStr (js "0"))
     ∧ ∀ r : DbRecord,
         (updateData ∪ r) !! "sourceName" = r !! "sourceName"
         ∧ (updateData ∪ r) !! "sourceUrl" = r !! "sourceUrl").
Proof.
  intros Hvalid Hid updateData.
  pose proof (proj1 (validateForm_valid formData) Hvalid)
    as (Htitle & Hexcerpt & Hcontent & Hauthor & Hcategory).
  destruct (update_record_lookups (iso_updated env)
              (CreatePost.articleData_of formData categories today))
    as (_ & Ut & Uc & Ue & Ua & Ucat & _ & _ & Uimg & Upub & _ & Uflag & Usn & Usu
        & _ & Uother).
  fold updateData in Ut, Uc, Ue, Ua, Ucat, Uimg, Upub, Uflag, Usn, Usu, Uother.
  cbn [CreatePost.articleData_of PartialArticle.title PartialArticle.excerpt
       PartialArticle.content PartialArticle.author PartialArticle.category
       PartialArticle.featuredImage PartialArticle.publishedAt
       PartialArticle.isAggregated PartialArticle.sourceName
       PartialArticle.sourceUrl]
    in Ut, Uc, Ue, Ua, Ucat, Uimg, Upub, Uflag, Usn, Usu.
  refine (conj _ (conj _ (conj _ (conj _ (conj _ (conj _ (conj _ (conj _ (conj _ _))))))))).
  - unfold CreatePost.handleSave. rewrite Hvalid.
    destruct id as [|c i]; [done|]. rewrite updateArticle_store.
    fold updateData.
    by destruct (List.filter (Store.has_id (c :: i)) (Store.articles st)).
  - by rewrite Ut, written_nonempty.
  - by rewrite Ue, written_nonempty.
  - by rewrite Uc, written_nonempty.
  - by rewrite Ua, written_nonempty.
  - by rewrite Ucat, written_nonempty.
  - apply Uother. unfold update_keys. rewrite !not_elem_of_cons.
    repeat split; try done. apply not_elem_of_nil.
  - intros Htoday. by rewrite Upub, written_nonempty.
  - intros Himg. by rewrite Uimg, Himg.
  - intros Hagg. rewrite Hagg in Uflag, Usn, Usu. split; [done|].
    intros r. by rewrite !lookup_union_r.
Qed.

Lemma handleSave_updates_witness :
  let updateData :=
    update_record (H := IntNumber.ops) (iso_updated Sample.env)
      (CreatePost.articleData_of PageSample.draft PageSample.categories
         PageSample.today) in
  updateData !! "publishedAt" = Some (VStr (js "2024-06-01"))
  ∧ (updateData ∪ Sample.thursday) !! "sourceName" = Sample.thursday !! "sourceName".
Proof.
  destruct (handleSave_updates (H := IntNumber.ops) Sample.env PageSample.today
              (js "a4") PageSample.draft PageSample.categories Sample.four_articles)
    as (_ & _ & _ & _ & _ & _ & _ & Hpub & _ & Hagg); [done|done|].
  split; [by apply Hpub|]. by apply Hagg.
Defined.

(** ** The admin dashboard *)

(** X17: the dashboard's counts add up: total = original + aggregated, for
    every list of articles; and [loadDashboardData] shows no article and
    three zero counts for every client and state, since it displays what
    [getArticles] returns. *)
Theorem dashboard_stats `{JsNumber} {S : Type} (db : DbClient S) (views : nat) (st : S) :
  (∀ allArticles : list Article.t,
     let stats := AdminDashboard.stats_of allArticles views in
     AdminDashboard.totalArticles stats
     = (AdminDashboard.originalArticles stats
        + AdminDashboard.aggregatedArticles stats)%nat)
  ∧ (AdminDashboard.loadDashboardData db views st).1
    = ([], {| AdminDashboard.totalArticles := 0;
              AdminDashboard.originalArticles := 0;
              AdminDashboard.aggregatedArticles := 0;
              AdminDashboard.totalViews := views |}).
Proof.
  split.
  - intros allArticles. cbn.
    induction allArticles as [|a l IH]; [done|]. cbn.
    destruct (Article.isAggregated a); cbn; lia.
  - unfold AdminDashboard.loadDashboardData. by rewrite getArticles_unfold.
Qed.
